(** * OGTaudio: the transcription and translation pipeline of [script_translator.py]

    A shallow embedding of class [GameTranslator] and of [main].  Python
    strings are sequences of code points; the methods are computations in a
    state and exception monad over a world made of the translator object, the
    file system, the clock and the trace of observable events.  What the
    external world decides (the outcome of a spawned process, the readings of
    the clock, the built-in [str.lower]) is an explicit environment.

    The boundary with Python's libraries is drawn as follows.
    - [subprocess.run] rejects an argument list that holds a NUL character
      ([ValueError]), or fails to start the executable ([OSError]), or runs
      it to its exit; captured output that is not text raises
      [UnicodeDecodeError], and with [check=True] a non-zero status raises
      [CalledProcessError].  A spawn is recorded in the trace when it is
      attempted.
    - The contents of a text file and the standard output of a process are
      the decoded texts that [read()] and [text=True] deliver.  Reading a
      path that holds nothing raises [FileNotFoundError], a file that is not
      text [UnicodeDecodeError], a directory [IsADirectoryError], a file
      without read permission [PermissionError].
    - [print] always succeeds; each call is recorded with the values that it
      formats, one constructor of [output] for each call of the source.
    - [time.time()] returns a float and [-] on floats is the subtraction of
      IEEE 754 binary64, that of the primitive floats. *)

From Stdlib Require Import List String Ascii ZArith NArith Bool Lia.
From Stdlib Require Import PrimFloat.
Import ListNotations.

(** ** Python strings *)

Module PyStr.

(** A [str] is a sequence of Unicode code points. *)
Definition str := list N.

(** An ASCII literal of the source. *)
Definition lit (s : string) : str := map N_of_ascii (list_ascii_of_string s).

(** [a == b] on strings. *)
Fixpoint eqb (a b : str) : bool :=
  match a, b with
  | [], [] => true
  | x :: a', y :: b' => N.eqb x y && eqb a' b'
  | _, _ => false
  end.

(** [str.isspace] on one code point: the white space table of CPython
    (bidirectional types WS, B and S, and category Zs). *)
Definition isspace (c : N) : bool :=
  (((0x9 <=? c) && (c <=? 0xD)) || ((0x1C <=? c) && (c <=? 0x20))
  || (c =? 0x85) || (c =? 0xA0) || (c =? 0x1680)
  || ((0x2000 <=? c) && (c <=? 0x200A))
  || (c =? 0x2028) || (c =? 0x2029) || (c =? 0x202F) || (c =? 0x205F)
  || (c =? 0x3000))%N.

Fixpoint lstrip (s : str) : str :=
  match s with
  | c :: s' => if isspace c then lstrip s' else s
  | [] => []
  end.

Definition rstrip (s : str) : str := rev (lstrip (rev s)).

(** [s.strip()] with no argument. *)
Definition strip (s : str) : str := rstrip (lstrip s).

Fixpoint startswith (p s : str) : bool :=
  match p, s with
  | [], _ => true
  | x :: p', y :: s' => N.eqb x y && startswith p' s'
  | _ :: _, [] => false
  end.

(** The scan of [s.replace(old, new)] for a non-empty [old]: [skip] counts
    the characters of a matched occurrence that are still to be dropped. *)
Fixpoint replace_scan (old new : str) (skip : nat) (s : str) : str :=
  match s with
  | [] => []
  | c :: s' =>
      match skip with
      | S k => replace_scan old new k s'
      | O =>
          if startswith old s
          then new ++ replace_scan old new (pred (List.length old)) s'
          else c :: replace_scan old new 0 s'
      end
  end.

(** [s.replace(old, new)]: every non-overlapping occurrence, left to right;
    an empty [old] matches before every character and at the end. *)
Definition replace (old new s : str) : str :=
  match old with
  | [] => new ++ flat_map (fun c => c :: new) s
  | _ :: _ => replace_scan old new 0 s
  end.

(** The lower-casing of ASCII text, an instance of [str.lower] for the
    concrete runs below. *)
Definition ascii_lower (s : str) : str :=
  map (fun c => if (0x41 <=? c) && (c <=? 0x5A) then c + 0x20 else c)%N s.

End PyStr.

Import PyStr.

(** ** Exceptions, processes, events *)

(** [elapsed_time] is the integer [0] after construction and a float after a
    timed run. *)
Inductive number : Type :=
| PyInt (z : Z)
| PyFloat (f : float).

Inductive exn : Type :=
| NotImplementedError (msg : string)
| ValueError (msg : string)
| CalledProcessError (returncode : Z) (cmd : list str)
| OSError (errno : Z)
| FileNotFoundError (filename : str)
| AttributeError (msg : string)
| SystemExit (code : Z)
| UnicodeDecodeError
| IsADirectoryError (filename : str)
| PermissionError (filename : str).

Definition is_CalledProcessError (e : exn) : bool :=
  match e with
  | CalledProcessError _ _ => true
  | _ => false
  end.

(** What becomes of a spawned command: the executable could not be started,
    or the process ran and exited with a return code and a standard output;
    or the argument list holds a NUL character and nothing is started; or
    the process ran and the output that was captured from it is not text in
    the encoding of the locale (an answer to capturing calls only). *)
Inductive proc_result : Type :=
| SpawnFailed (errno : Z)
| Exited (returncode : Z) (out : str)
| NullByte
| NotText.

(** What a path holds for [open(path, "r")] and [read()]: a text file with
    the text that [read()] returns ([Some content]), nothing ([None]), a
    file whose bytes are not text, a directory, or a file that may not be
    read. *)
Inductive entry : Type :=
| Plain (text : option str)
| Binary
| Directory
| Forbidden.

#[warning="-uniform-inheritance"]
Coercion Plain : option >-> entry.

(** The file system, by path. *)
Definition filesystem := str -> entry.

Record CompletedProcess : Type := {
  args : list str;
  returncode : Z;
  stdout : option str
}.

(** One constructor for each [print] of the source, with the values that are
    formatted into the line. *)
Inductive output : Type :=
| OutRule
| OutTranscriptionModel (m : str)
| OutPrerecordedFile (f : str)
| OutInputLanguage (l : str)
| OutOutputLanguage (l : str)
| OutElapsedTime (t : number)
| OutTranscriptionError (e : exn)
| OutTranslationError (e : exn)
| OutTranscriptionFailed
| OutTranslation (s : str).

Inductive event : Type :=
| EvPrint (o : output)
| EvSpawn (cmd : list str) (capture_output : bool)
| EvOpen (path : str)
| EvSetElapsedTime (v : number).

(** ** The translator object and the world *)

Record GameTranslator : Type := {
  pre_recorded : bool;
  transcription_model : str;
  filepath : str;
  input_language : str;
  output_language : str;
  elapsed_time : number
}.

Record state : Type := {
  self : GameTranslator;
  files : filesystem;
  ticks : nat;
  trace : list event
}.

(** The environment: Python's [str.lower], the successive readings of
    [time.time()], and what a command does to the file system and how it
    ends. *)
Record Env : Type := {
  lower : str -> str;
  clock : nat -> float;
  run_process : list str -> filesystem -> proc_result * filesystem
}.

(** ** The monad of methods *)

Inductive result (A : Type) : Type :=
| Ret (a : A)
| Raise (e : exn).

Arguments Ret {A} a.
Arguments Raise {A} e.

Definition M (A : Type) : Type := state -> result A * state.

Definition ret {A} (a : A) : M A := fun st => (Ret a, st).

Definition raise {A} (e : exn) : M A := fun st => (Raise e, st).

Definition bind {A B} (m : M A) (k : A -> M B) : M B :=
  fun st =>
    match m st with
    | (Ret a, st') => k a st'
    | (Raise e, st') => (Raise e, st')
    end.

(** [try: body / except C as e: handler e], where [caught] recognises
    class [C]. *)
Definition try_except {A} (body : M A) (caught : exn -> bool)
           (handler : exn -> M A) : M A :=
  fun st =>
    match body st with
    | (Ret a, st') => (Ret a, st')
    | (Raise e, st') => if caught e then handler e st' else (Raise e, st')
    end.

Declare Scope py_scope.
Delimit Scope py_scope with py.
Notation "x <- m ;; k" := (bind m (fun x => k))
  (at level 100, m at next level, right associativity) : py_scope.
Notation "m ;; k" := (bind m (fun _ => k))
  (at level 100, right associativity) : py_scope.
Open Scope py_scope.

Definition emit (e : event) : M unit :=
  fun st =>
    (Ret tt, {| self := self st; files := files st; ticks := ticks st;
                trace := trace st ++ [e] |}).

Definition print (o : output) : M unit := emit (EvPrint o).

Definition get_self : M GameTranslator := fun st => (Ret (self st), st).

(** [self.elapsed_time = v] *)
Definition set_elapsed_time (v : number) : M unit :=
  fun st =>
    let g := self st in
    (Ret tt,
     {| self := {| pre_recorded := pre_recorded g;
                   transcription_model := transcription_model g;
                   filepath := filepath g;
                   input_language := input_language g;
                   output_language := output_language g;
                   elapsed_time := v |};
        files := files st; ticks := ticks st;
        trace := trace st ++ [EvSetElapsedTime v] |}).

(** [open(path, "r")] followed by [read()]. *)
Definition open_read (path : str) : M str :=
  emit (EvOpen path) ;;
  fun st =>
    match files st path with
    | Plain (Some content) => (Ret content, st)
    | Plain None => (Raise (FileNotFoundError path), st)
    | Binary => (Raise UnicodeDecodeError, st)
    | Directory => (Raise (IsADirectoryError path), st)
    | Forbidden => (Raise (PermissionError path), st)
    end.

Section Pipeline.

Variable E : Env.

(** [time.time()] *)
Definition time_time : M float :=
  fun st =>
    (Ret (clock E (ticks st)),
     {| self := self st; files := files st; ticks := S (ticks st);
        trace := trace st |}).

(** [subprocess.run(cmd, capture_output=..., text=True, check=...)] *)
Definition subprocess_run (cmd : list str) (capture_output check : bool)
  : M CompletedProcess :=
  emit (EvSpawn cmd capture_output) ;;
  fun st =>
    match run_process E cmd (files st) with
    | (SpawnFailed errno, _) => (Raise (OSError errno), st)
    | (NullByte, _) => (Raise (ValueError "embedded null byte"), st)
    | (Exited code out, fs) =>
        let st' := {| self := self st; files := fs; ticks := ticks st;
                      trace := trace st |} in
        if check && negb (code =? 0)%Z
        then (Raise (CalledProcessError code cmd), st')
        else (Ret {| args := cmd; returncode := code;
                     stdout := if capture_output then Some out else None |},
              st')
    | (NotText, fs) =>
        (Raise UnicodeDecodeError,
         {| self := self st; files := fs; ticks := ticks st;
            trace := trace st |})
    end.

(** *** class GameTranslator *)

Definition __init__ (transcription_model filepath : str) (prerecorded : bool)
           (input_language output_language : str) : GameTranslator :=
  {| pre_recorded := prerecorded;
     transcription_model := transcription_model;
     filepath := filepath;
     input_language := lower E input_language;
     output_language := lower E output_language;
     elapsed_time := PyInt 0 |}.

Definition show_translator_info : M unit :=
  g <- get_self ;;
  print OutRule ;;
  print (OutTranscriptionModel (transcription_model g)) ;;
  print (OutPrerecordedFile
           (if pre_recorded g then filepath g else lit "None")) ;;
  print (OutInputLanguage (input_language g)) ;;
  print (OutOutputLanguage (output_language g)) ;;
  print OutRule.

Definition show_time : M unit :=
  g <- get_self ;;
  print (OutElapsedTime (elapsed_time g)).

Definition whisper_path : str := lit "./whisper.cpp/main".
Definition model_path : str := lit "./whisper.cpp/models/ggml-base.en.bin".

Definition result_file (g : GameTranslator) : str :=
  replace (lit ".wav.txt") (lit ".txt") (filepath g).

Definition whisper_command (g : GameTranslator) : list str :=
  [ whisper_path;
    lit "-m"; model_path;
    lit "-f"; filepath g;
    lit "-l"; input_language g;
    lit "-otxt" ].

Definition whisper_cpp_transcription : M str :=
  g <- get_self ;;
  if negb (pre_recorded g)
  then raise (NotImplementedError
                "Прямая запись аудио не реализована в этой версии.")
  else
    content <-
      try_except
        (subprocess_run (whisper_command g) false true ;;
         text <- open_read (result_file g) ;;
         ret (strip text))
        is_CalledProcessError
        (fun e => print (OutTranscriptionError e) ;; ret []) ;;
    ret content.

Definition prompt (g : GameTranslator) (text : str) : str :=
  lit "Translate the following text to " ++ output_language g
    ++ lit ": " ++ text.

Definition llama_command (g : GameTranslator) (text : str) : list str :=
  [ lit "ollama"; lit "run"; lit "llama3"; prompt g text ].

Definition llama_translation (text : str) : M str :=
  g <- get_self ;;
  try_except
    (result <- subprocess_run (llama_command g text) true true ;;
     match stdout result with
     | Some out => ret (strip out)
     | None =>
         raise (AttributeError "'NoneType' object has no attribute 'strip'")
     end)
    is_CalledProcessError
    (fun e => print (OutTranslationError e) ;; ret []).

Definition unsupported_engine : exn :=
  ValueError "Поддерживается только модель 'whisper_cpp'.".

Definition translate : M str :=
  start_time <- time_time ;;
  show_translator_info ;;
  g <- get_self ;;
  text <- (if eqb (transcription_model g) (lit "whisper_cpp")
           then whisper_cpp_transcription
           else raise unsupported_engine) ;;
  match text with
  | [] => print OutTranscriptionFailed ;; ret []
  | _ :: _ =>
      translation <- llama_translation text ;;
      end_time <- time_time ;;
      set_elapsed_time (PyFloat (PrimFloat.sub end_time start_time)) ;;
      show_time ;;
      ret translation
  end.

End Pipeline.

(** ** The command line *)

(** The attributes of the object that [parser.parse_args()] returns, typed
    as the five [add_argument] declarations make them. *)
Module Args.
Record t : Type := {
  file : str;
  transcription_model : str;
  pre_recorded : bool;
  input_language : str;
  output_language : str
}.
End Args.

(** [choices] of the [--transcription_model] argument. *)
Definition transcription_model_choices : list str := [ lit "whisper_cpp" ].

(** [translator = GameTranslator(...)]: the object of the run. *)
Definition construct (g : GameTranslator) : M unit :=
  fun st =>
    (Ret tt, {| self := g; files := files st; ticks := ticks st;
                trace := trace st |}).

Section CommandLine.

Variable E : Env.

(** [argparse]'s [parse_args] for the parser that [main] declares: it
    returns the arguments, or leaves through [SystemExit] with an exit
    status. *)
Variable parse_args : list str -> Args.t + Z.

Definition main (argv : list str) : M unit :=
  match parse_args argv with
  | inr status => raise (SystemExit status)
  | inl a =>
      construct (__init__ E (Args.transcription_model a) (Args.file a)
                          (Args.pre_recorded a) (Args.input_language a)
                          (Args.output_language a)) ;;
      translation_result <- translate E ;;
      print (OutTranslation translation_result)
  end.

End CommandLine.

(** A reference parser for the five declarations of [main]: long options
    followed by their value, the two short options, the presence flag; every
    valued option is required and [--transcription_model] must be one of its
    choices, otherwise the parser exits with status 2. *)
Module RefParser.

Record partial : Type := {
  p_file : option str;
  p_model : option str;
  p_pre : bool;
  p_in : option str;
  p_out : option str
}.

Definition nothing : partial :=
  {| p_file := None; p_model := None; p_pre := false;
     p_in := None; p_out := None |}.

Fixpoint scan (argv : list str) (acc : partial) : option partial :=
  match argv with
  | [] => Some acc
  | flag :: rest =>
      if eqb flag (lit "--pre_recorded")
      then scan rest {| p_file := p_file acc; p_model := p_model acc;
                        p_pre := true; p_in := p_in acc;
                        p_out := p_out acc |}
      else
        match rest with
        | [] => None
        | v :: rest' =>
            if eqb flag (lit "--file")
            then scan rest' {| p_file := Some v; p_model := p_model acc;
                               p_pre := p_pre acc; p_in := p_in acc;
                               p_out := p_out acc |}
            else if eqb flag (lit "--transcription_model")
            then scan rest' {| p_file := p_file acc; p_model := Some v;
                               p_pre := p_pre acc; p_in := p_in acc;
                               p_out := p_out acc |}
            else if eqb flag (lit "--input_language") || eqb flag (lit "-i")
            then scan rest' {| p_file := p_file acc; p_model := p_model acc;
                               p_pre := p_pre acc; p_in := Some v;
                               p_out := p_out acc |}
            else if eqb flag (lit "--output_language") || eqb flag (lit "-o")
            then scan rest' {| p_file := p_file acc; p_model := p_model acc;
                               p_pre := p_pre acc; p_in := p_in acc;
                               p_out := Some v |}
            else None
        end
  end.

Definition parse_args (argv : list str) : Args.t + Z :=
  match scan argv nothing with
  | Some {| p_file := Some f; p_model := Some m; p_pre := pre;
            p_in := Some i; p_out := Some o |} =>
      if existsb (eqb m) transcription_model_choices
      then inl {| Args.file := f; Args.transcription_model := m;
                  Args.pre_recorded := pre; Args.input_language := i;
                  Args.output_language := o |}
      else inr 2%Z
  | _ => inr 2%Z
  end.

End RefParser.

(** ** The parser of [main]

    [argparse.ArgumentParser.parse_args] as CPython 3.11 implements it, for
    parsers such as that of [main]: optional arguments only, actions
    [store] with one argument, [store_true] and [help], prefix character
    [-], abbreviations allowed.  Messages are not modelled: [parse_args]
    returns the namespace or the status with which it exits. *)

Module Argparse.

Inductive action_class : Type := StoreAction | StoreTrueAction | HelpAction.

Record Action : Type := {
  option_strings : list str;
  dest : string;
  class : action_class;
  choices : option (list str);
  required : bool
}.

(** The values that these actions put in a namespace. *)
Inductive value : Type :=
| PyNone
| PyBool (b : bool)
| PyStr (s : str)
| PyEmptyList.

Definition Namespace := list (string * value).

Fixpoint setattr (ns : Namespace) (name : string) (v : value) : Namespace :=
  match ns with
  | [] => [(name, v)]
  | (n, w) :: ns' =>
      if String.eqb n name then (n, v) :: ns' else (n, w) :: setattr ns' name v
  end.

Fixpoint getattr (ns : Namespace) (name : string) : option value :=
  match ns with
  | [] => None
  | (n, w) :: ns' => if String.eqb n name then Some w else getattr ns' name
  end.

(** [nargs]: [None] (one argument) for [store], [0] for the others. *)
Definition nargs (a : Action) : nat :=
  match class a with
  | StoreAction => 1
  | StoreTrueAction | HelpAction => 0
  end.

(** [_option_string_actions]: the option strings in the order of their
    declaration, each with the index of its action. *)
Fixpoint option_string_actions_from (n : nat) (actions : list Action)
  : list (str * nat) :=
  match actions with
  | [] => []
  | a :: rest =>
      map (fun o => (o, n)) (option_strings a)
        ++ option_string_actions_from (S n) rest
  end.

Definition option_string_actions (parser : list Action) : list (str * nat) :=
  option_string_actions_from 0 parser.

Fixpoint lookup (table : list (str * nat)) (option_string : str)
  : option nat :=
  match table with
  | [] => None
  | (o, i) :: rest => if eqb o option_string then Some i else lookup rest option_string
  end.

(** [s.split('=', 1)] when ['=' in s]. *)
Fixpoint split_equals (s : str) : option (str * str) :=
  match s with
  | [] => None
  | c :: r =>
      if (c =? 61)%N then Some ([], r)
      else match split_equals r with
           | Some (before, after) => Some (c :: before, after)
           | None => None
           end
  end.

(** The first code points of the runs of ten decimal digits of Unicode
    14; the mathematical digits U+1D7CE to U+1D7FF make one more run. *)
Definition decimal_digit_runs : list N :=
  [
    0x30; 0x660; 0x6f0; 0x7c0; 0x966; 0x9e6; 0xa66; 0xae6; 0xb66; 0xbe6;
    0xc66; 0xce6; 0xd66; 0xde6; 0xe50; 0xed0; 0xf20; 0x1040; 0x1090;
    0x17e0; 0x1810; 0x1946; 0x19d0; 0x1a80; 0x1a90; 0x1b50; 0x1bb0; 0x1c40;
    0x1c50; 0xa620; 0xa8d0; 0xa900; 0xa9d0; 0xa9f0; 0xaa50; 0xabf0; 0xff10;
    0x104a0; 0x10d30; 0x11066; 0x110f0; 0x11136; 0x111d0; 0x112f0; 0x11450;
    0x114d0; 0x11650; 0x116c0; 0x11730; 0x118e0; 0x11950; 0x11c50; 0x11d50;
    0x11da0; 0x16a60; 0x16ac0; 0x16b50; 0x1e140; 0x1e2f0; 0x1e950; 0x1fbf0 ]%N.

(** [\d] of the module [re] on a string pattern. *)
Definition is_decimal (c : N) : bool :=
  (existsb (fun start => (start <=? c) && (c <? start + 10)) decimal_digit_runs
   || ((0x1d7ce <=? c) && (c <=? 0x1d7ff)))%N.

Fixpoint skip_decimals (s : str) : str :=
  match s with
  | c :: r => if is_decimal c then skip_decimals r else s
  | [] => []
  end.

Definition all_decimals (s : str) : bool :=
  match s with
  | [] => false
  | _ :: _ => forallb is_decimal s
  end.

(** [_negative_number_matcher.match(s)], for the pattern
    [^-\d+$|^-\d*\.\d+$]; [$] also matches before a final line feed. *)
Definition negative_number (s : str) : bool :=
  let s := match rev s with
           | 10%N :: r => rev r
           | _ => s
           end in
  match s with
  | 45%N :: r =>
      all_decimals r
      || match skip_decimals r with
         | 46%N :: fraction => all_decimals fraction
         | _ => false
         end
  | _ => false
  end.

Definition has_negative_number_optionals (parser : list Action) : bool :=
  existsb (fun entry => negative_number (fst entry))
          (option_string_actions parser).

(** What [_parse_optional] makes of an argument string: [None] (an
    argument), a tuple of action, option string and explicit argument, or an
    exit on an ambiguous abbreviation. *)
Inductive parsed : Type :=
| Positional
| Optional (action : option nat) (option_string : str)
           (explicit_arg : option str)
| Ambiguous.

Definition _get_option_tuples (parser : list Action) (option_string : str)
  : list (nat * str * option str) :=
  match option_string with
  | _ :: 45%N :: _ =>
      let (option_prefix, explicit_arg) :=
        match split_equals option_string with
        | Some (before, after) => (before, Some after)
        | None => (option_string, None)
        end in
      flat_map (fun entry : str * nat =>
                  let (o, i) := entry in
                  if startswith option_prefix o
                  then [(i, o, explicit_arg)] else [])
               (option_string_actions parser)
  | _ =>
      let short_option_prefix := firstn 2 option_string in
      let short_explicit_arg := skipn 2 option_string in
      flat_map (fun entry : str * nat =>
                  let (o, i) := entry in
                  if eqb o short_option_prefix
                  then [(i, o, Some short_explicit_arg)]
                  else if startswith option_string o
                       then [(i, o, None)] else [])
               (option_string_actions parser)
  end.

Definition _parse_optional (parser : list Action) (arg_string : str)
  : parsed :=
  match arg_string with
  | [] => Positional
  | c :: rest =>
      if negb (c =? 45)%N then Positional
      else
        match lookup (option_string_actions parser) arg_string with
        | Some i => Optional (Some i) arg_string None
        | None =>
            match rest with
            | [] => Positional
            | _ :: _ =>
                let by_equals :=
                  match split_equals arg_string with
                  | Some (before, after) =>
                      match lookup (option_string_actions parser) before with
                      | Some i => Some (i, before, after)
                      | None => None
                      end
                  | None => None
                  end in
                match by_equals with
                | Some (i, o, explicit_arg) =>
                    Optional (Some i) o (Some explicit_arg)
                | None =>
                    match _get_option_tuples parser arg_string with
                    | _ :: _ :: _ => Ambiguous
                    | [(i, o, explicit_arg)] => Optional (Some i) o explicit_arg
                    | [] =>
                        if negative_number arg_string
                           && negb (has_negative_number_optionals parser)
                        then Positional
                        else if existsb (N.eqb 32) arg_string
                             then Positional
                             else Optional None arg_string None
                    end
                end
            end
        end
  end.

(** The letters of [arg_strings_pattern]: ['A'] for an argument, ['-'] for
    the first [--], ['O'] for an option, with its tuple. *)
Inductive pattern : Type :=
| Arg
| DoubleDash
| Opt (action : option nat) (option_string : str) (explicit_arg : option str).

(** The argument strings with their patterns: after a [--] every string is
    an argument.  [None] when an abbreviation is ambiguous. *)
Fixpoint patterns (parser : list Action) (arg_strings : list str)
  : option (list (str * pattern)) :=
  match arg_strings with
  | [] => Some []
  | arg_string :: rest =>
      if eqb arg_string (lit "--")
      then Some ((arg_string, DoubleDash) :: map (fun a => (a, Arg)) rest)
      else
        match _parse_optional parser arg_string with
        | Ambiguous => None
        | Positional =>
            match patterns parser rest with
            | Some ps => Some ((arg_string, Arg) :: ps)
            | None => None
            end
        | Optional action option_string explicit_arg =>
            match patterns parser rest with
            | Some ps =>
                Some ((arg_string, Opt action option_string explicit_arg)
                        :: ps)
            | None => None
            end
        end
  end.

(** [_get_values] and [_check_value] for the argument strings of one
    action, of which there is at most one: the first [--] is removed; the
    one string of a [store] is checked against the choices; no string gives
    the empty list.  [None] on an invalid choice. *)
Fixpoint remove (x : str) (l : list str) : list str :=
  match l with
  | [] => []
  | y :: l' => if eqb y x then l' else y :: remove x l'
  end.

Definition _get_values (a : Action) (arg_strings : list str)
  : option value :=
  let arg_strings := remove (lit "--") arg_strings in
  match arg_strings, class a with
  | [arg_string], StoreAction =>
      match choices a with
      | Some cs =>
          if existsb (eqb arg_string) cs then Some (PyStr arg_string) else None
      | None => Some (PyStr arg_string)
      end
  | _, _ => Some PyEmptyList
  end.

(** The state of [_parse_known_args]: the namespace and the actions seen. *)
Definition progress : Type := Namespace * list nat.

(** [take_action]: the status of an exit, or the new state. *)
Definition take_action (parser : list Action) (st : progress)
           (tuple : nat * list str) : Z + progress :=
  let (i, argument_strings) := tuple in
  let (namespace, seen_actions) := st in
  match nth_error parser i with
  | None => inl 2%Z
  | Some a =>
      match _get_values a argument_strings with
      | None => inl 2%Z
      | Some argument_values =>
          match class a with
          | StoreAction =>
              inr (setattr namespace (dest a) argument_values,
                   i :: seen_actions)
          | StoreTrueAction =>
              inr (setattr namespace (dest a) (PyBool true), i :: seen_actions)
          | HelpAction => inl 0%Z
          end
      end
  end.

Fixpoint take_actions (parser : list Action) (st : progress)
         (action_tuples : list (nat * list str)) : Z + progress :=
  match action_tuples with
  | [] => inr st
  | tuple :: rest =>
      match take_action parser st tuple with
      | inl status => inl status
      | inr st' => take_actions parser st' rest
      end
  end.

(** The end of [consume_optional] for an action without explicit argument:
    a [store] takes the next string when it is an argument. *)
Definition match_following (parser : list Action) (i : nat)
           (following : option str)
  : option (list (nat * list str) * bool) :=
  match nth_error parser i with
  | None => None
  | Some a =>
      match nargs a, following with
      | O, _ => Some ([(i, [])], false)
      | S _, Some arg_string => Some ([(i, [arg_string])], true)
      | S _, None => None
      end
  end.

(** The loop of [consume_optional] for an action with an explicit argument:
    the action tuples, and whether the next string is consumed; [None] on an
    error.  A single-dash flag lets the rest of the string name more
    options. *)
Fixpoint match_explicit (parser : list Action) (i : nat) (option_string : str)
         (explicit_arg : str) (following : option str) {struct explicit_arg}
  : option (list (nat * list str) * bool) :=
  match nth_error parser i with
  | None => None
  | Some a =>
      match nargs a with
      | O =>
          match nth_error option_string 1, explicit_arg with
          | Some 45%N, _ => None
          | _, [] => None
          | _, c :: new_explicit_arg =>
              let option_string := [45%N; c] in
              match lookup (option_string_actions parser) option_string with
              | None => None
              | Some j =>
                  let more :=
                    match new_explicit_arg with
                    | [] => match_following parser j following
                    | _ :: _ =>
                        match_explicit parser j option_string
                                       new_explicit_arg following
                    end in
                  match more with
                  | Some (action_tuples, consumed) =>
                      Some ((i, []) :: action_tuples, consumed)
                  | None => None
                  end
              end
          end
      | S _ => Some ([(i, [explicit_arg])], false)
      end
  end.

(** The loop of [_parse_known_args] over the argument strings and their
    patterns: the status of an exit, or the final state and the extras. *)
Fixpoint consume (parser : list Action) (items : list (str * pattern))
         (st : progress) (extras : list str)
  : Z + (progress * list str) :=
  match items with
  | [] => inr (st, extras)
  | (arg_string, Arg) :: rest
  | (arg_string, DoubleDash) :: rest
  | (arg_string, Opt None _ _) :: rest =>
      consume parser rest st (extras ++ [arg_string])
  | (_, Opt (Some i) option_string explicit_arg) :: rest =>
      let following :=
        match rest with
        | (next, Arg) :: _ => Some next
        | _ => None
        end in
      let matched :=
        match explicit_arg with
        | Some e => match_explicit parser i option_string e following
        | None => match_following parser i following
        end in
      match matched with
      | None => inl 2%Z
      | Some (action_tuples, consumed) =>
          match take_actions parser st action_tuples with
          | inl status => inl status
          | inr st' =>
              if consumed
              then match rest with
                   | _ :: rest' => consume parser rest' st' extras
                   | [] => inl 2%Z
                   end
              else consume parser rest st' extras
          end
      end
  end.

(** The defaults that [parse_known_args] puts in the namespace. *)
Fixpoint defaults (parser : list Action) : Namespace :=
  match parser with
  | [] => []
  | a :: rest =>
      match class a with
      | StoreAction => setattr (defaults rest) (dest a) PyNone
      | StoreTrueAction => setattr (defaults rest) (dest a) (PyBool false)
      | HelpAction => defaults rest
      end
  end.

Fixpoint missing_from (n : nat) (actions : list Action) (seen : list nat)
  : bool :=
  match actions with
  | [] => false
  | a :: rest =>
      (required a && negb (existsb (Nat.eqb n) seen))
      || missing_from (S n) rest seen
  end.

Definition parse_args (parser : list Action) (args : list str)
  : Namespace + Z :=
  match patterns parser args with
  | None => inr 2%Z
  | Some items =>
      match consume parser items (defaults parser, []) [] with
      | inl status => inr status
      | inr (namespace, seen_actions, extras) =>
          if missing_from 0 parser seen_actions then inr 2%Z
          else match extras with
               | [] => inl namespace
               | _ :: _ => inr 2%Z
               end
      end
  end.

(** The parser that [main] builds: the help that every parser has, then the
    five arguments in the order of their declaration. *)
Definition parser : list Action :=
  [ {| option_strings := [lit "-h"; lit "--help"]; dest := "help";
       class := HelpAction; choices := None; required := false |};
    {| option_strings := [lit "--file"]; dest := "file";
       class := StoreAction; choices := None; required := true |};
    {| option_strings := [lit "--transcription_model"];
       dest := "transcription_model"; class := StoreAction;
       choices := Some [lit "whisper_cpp"]; required := true |};
    {| option_strings := [lit "--pre_recorded"]; dest := "pre_recorded";
       class := StoreTrueAction; choices := None; required := false |};
    {| option_strings := [lit "-i"; lit "--input_language"];
       dest := "input_language"; class := StoreAction; choices := None;
       required := true |};
    {| option_strings := [lit "-o"; lit "--output_language"];
       dest := "output_language"; class := StoreAction; choices := None;
       required := true |} ].

End Argparse.


(** ** [main] with that parser

    An option written [--option=--] holds the empty list instead of a
    string, and the five attributes go to the constructor as they are.  A
    language that is not a string has no [lower] (lines 41 and 42).  When
    the engine and the path are strings the run is that of the translator
    object.  Otherwise [translate] reads the clock, shows the configuration
    and compares the engine with "whisper_cpp" (lines 141 to 148); an
    engine that is not a string is different from it, and a path that is
    not a string has no [replace] (line 87).  The record of the typed
    translator cannot hold such an object: that run leaves [self] as it
    is. *)

Section CommandLine_argparse.

Variable E : Env.

Import Argparse.

(** [str(v)], as an f-string formats it. *)
Definition format (v : value) : str :=
  match v with
  | PyNone => lit "None"
  | PyBool true => lit "True"
  | PyBool false => lit "False"
  | PyStr s => s
  | PyEmptyList => lit "[]"
  end.

(** The truth value of [v]. *)
Definition truthy (v : value) : bool :=
  match v with
  | PyNone => false
  | PyBool b => b
  | PyStr s => negb (eqb s [])
  | PyEmptyList => false
  end.

(** The error of [v.name] for a method [name] of strings. *)
Definition no_attribute (v : value) (name : string) : exn :=
  AttributeError
    (match v with
     | PyNone => "'NoneType'"
     | PyBool _ => "'bool'"
     | PyStr _ => "'str'"
     | PyEmptyList => "'list'"
     end ++ " object has no attribute '" ++ name ++ "'")%string.

(** [attr] of the namespace; every attribute has its default. *)
Definition attribute (ns : Namespace) (name : string) : value :=
  match getattr ns name with
  | Some v => v
  | None => PyNone
  end.

(** Lines 203 to 213 on the namespace [ns]. *)
Definition run_namespace (ns : Namespace) : M unit :=
  let transcription_model := attribute ns "transcription_model" in
  let file := attribute ns "file" in
  let pre_recorded := truthy (attribute ns "pre_recorded") in
  match attribute ns "input_language" with
  | PyStr input_language =>
      match attribute ns "output_language" with
      | PyStr output_language =>
          match transcription_model, file with
          | PyStr engine, PyStr path =>
              construct (__init__ E engine path pre_recorded
                                  input_language output_language) ;;
              translation_result <- translate E ;;
              print (OutTranslation translation_result)
          | _, _ =>
              _ <- time_time E ;;
              print OutRule ;;
              print (OutTranscriptionModel (format transcription_model)) ;;
              print (OutPrerecordedFile
                       (if pre_recorded then format file else lit "None")) ;;
              print (OutInputLanguage (lower E input_language)) ;;
              print (OutOutputLanguage (lower E output_language)) ;;
              print OutRule ;;
              match transcription_model with
              | PyStr engine =>
                  if eqb engine (lit "whisper_cpp")
                  then if negb pre_recorded
                       then raise (NotImplementedError
                                     "Прямая запись аудио не реализована в этой версии.")
                       else raise (no_attribute file "replace")
                  else raise unsupported_engine
              | _ => raise unsupported_engine
              end
          end
      | v => raise (no_attribute v "lower")
      end
  | v => raise (no_attribute v "lower")
  end.

Definition main_argparse (argv : list str) : M unit :=
  match parse_args parser argv with
  | inr status => raise (SystemExit status)
  | inl ns => run_namespace ns
  end.

End CommandLine_argparse.

(** ** Concrete worlds *)

Module Worlds.

(** A file system with one text file. *)
Definition one_file (path content : str) : filesystem :=
  fun p => if eqb p path then Some content else None.

Definition no_files : filesystem := fun _ => None.

Definition is_whisper (cmd : list str) : bool :=
  eqb (hd [] cmd) (lit "./whisper.cpp/main").

(** An argument of the command holds a NUL character. *)
Definition has_nul (cmd : list str) : bool :=
  existsb (existsb (N.eqb 0)) cmd.

(** Commands with a NUL character are rejected before [run] is asked. *)
Definition rejecting_nul
           (run : list str -> filesystem -> proc_result * filesystem)
  : list str -> filesystem -> proc_result * filesystem :=
  fun cmd fs => if has_nul cmd then (NullByte, fs) else run cmd fs.

(** The clock reads 100.0 at the start and 102.5 afterwards. *)
Definition two_readings (n : nat) : float :=
  match n with
  | O => 100%float
  | S _ => 102.5%float
  end.

(** "Привет мир" followed by a line feed. *)
Definition privet_mir_nl : str :=
  [1055; 1088; 1080; 1074; 1077; 1090; 32; 1084; 1080; 1088; 10]%N.

Definition privet_mir : str :=
  [1055; 1088; 1080; 1074; 1077; 1090; 32; 1084; 1080; 1088]%N.

(** Both engines succeed: the transcription engine leaves [content] at
    [path], the translation engine prints [out]. *)
Definition both_succeed (path content out : str) : Env :=
  {| lower := ascii_lower;
     clock := two_readings;
     run_process := rejecting_nul (fun cmd fs =>
       if is_whisper cmd
       then (Exited 0 [], one_file path content)
       else (Exited 0 out, fs)) |}.

(** The transcription engine exits with status 1. *)
Definition whisper_exits_nonzero : Env :=
  {| lower := ascii_lower;
     clock := two_readings;
     run_process := rejecting_nul (fun cmd fs =>
       if is_whisper cmd
       then (Exited 1 [], fs)
       else (Exited 0 privet_mir_nl, fs)) |}.

(** The transcription engine succeeds, the translation engine exits with
    status 1. *)
Definition llama_exits_nonzero (path content : str) : Env :=
  {| lower := ascii_lower;
     clock := two_readings;
     run_process := rejecting_nul (fun cmd fs =>
       if is_whisper cmd
       then (Exited 0 [], one_file path content)
       else (Exited 1 [], fs)) |}.


(** The transcription engine succeeds and writes nothing. *)
Definition whisper_writes_nothing : Env :=
  {| lower := ascii_lower;
     clock := two_readings;
     run_process := rejecting_nul (fun _ fs => (Exited 0 [], fs)) |}.

Definition translator (E : Env) (engine file : string) (pre : bool)
           (input output : string) : GameTranslator :=
  __init__ E (lit engine) (lit file) pre (lit input) (lit output).

(** The world at the start of a run of [g]. *)
Definition start (g : GameTranslator) (fs : filesystem) : state :=
  {| self := g; files := fs; ticks := 0; trace := [] |}.

(** The engine hears "Hello world", the model answers "Привет мир". *)
Definition hello : Env :=
  both_succeed (lit "a.wav") (lit " Hello world ") privet_mir_nl.

(** The engine hears "Bonjour", the model fails. *)
Definition bonjour : Env := llama_exits_nonzero (lit "a.wav") (lit "Bonjour").

(** The run of [script_translator.py] on [a.wav], English to Russian, in
    the environment [E], from a file system that holds the audio file. *)
Definition a_wav (E : Env) : state :=
  start (translator E "whisper_cpp" "a.wav" true "English" "Russian")
        (one_file (lit "a.wav") (lit "RIFF")).

(** The same with an engine that does not exist. *)
Definition a_wav_unknown_engine (E : Env) : state :=
  start (translator E "unknown_engine" "a.wav" true "English" "Russian")
        (one_file (lit "a.wav") (lit "RIFF")).

(** The same without [--pre_recorded]. *)
Definition a_wav_live (E : Env) : state :=
  start (translator E "whisper_cpp" "a.wav" false "English" "Russian")
        (one_file (lit "a.wav") (lit "RIFF")).

Definition argv_a_wav (engine : string) : list str :=
  [ lit "--file"; lit "a.wav"; lit "--transcription_model"; lit engine;
    lit "--pre_recorded"; lit "-i"; lit "English"; lit "-o"; lit "Russian" ].



(** The engine leaves a result file that holds white space only. *)
Definition silence : Env :=
  both_succeed (lit "a.wav") [32; 9; 10; 160; 8195; 12288]%N privet_mir_nl.

(** The engine leaves a transcript that holds a NUL character. *)
Definition nul_transcript : Env :=
  both_succeed (lit "a.wav") [97; 0; 98]%N privet_mir_nl.

(** A recording: the audio file is not text. *)
Definition recording (audio : str) : filesystem :=
  fun p => if eqb p audio then Binary else None.

(** The file system once the engine has written [transcript] beside the
    audio file, at the audio path followed by ".txt". *)
Definition transcript_beside (audio transcript : str) (fs : filesystem)
  : filesystem :=
  fun p => if eqb p (audio ++ lit ".txt") then Some transcript else fs p.

(** The engine hears "Hello world" and writes it beside the audio file, which
    is the fifth element of its command; the model answers "Привет мир". *)
Definition dictation : Env :=
  {| lower := ascii_lower;
     clock := two_readings;
     run_process := rejecting_nul (fun cmd fs =>
       if is_whisper cmd
       then (Exited 0 [],
             transcript_beside (nth 4 cmd []) (lit "Hello world") fs)
       else (Exited 0 privet_mir_nl, fs)) |}.

(** The run on the recording [a.wav]. *)
Definition a_wav_recording (E : Env) : state :=
  start (translator E "whisper_cpp" "a.wav" true "English" "Russian")
        (recording (lit "a.wav")).

(** A translator whose audio path is spelt with the suffix [.wav.txt]. *)
Definition a_wav_txt (E : Env) : state :=
  start (translator E "whisper_cpp" "a.wav.txt" true "English" "Russian")
        no_files.

End Worlds.

Import Worlds.

(** ** Observations on a trace *)

(** The commands spawned, in order. *)
Fixpoint spawned (tr : list event) : list (list str) :=
  match tr with
  | [] => []
  | EvSpawn cmd _ :: tr' => cmd :: spawned tr'
  | _ :: tr' => spawned tr'
  end.

(** The values assigned to [elapsed_time], in order. *)
Fixpoint elapsed_time_writes (tr : list event) : list number :=
  match tr with
  | [] => []
  | EvSetElapsedTime v :: tr' => v :: elapsed_time_writes tr'
  | _ :: tr' => elapsed_time_writes tr'
  end.

(** The world in which [translate] calls the transcription stage: the start
    time has been read and the configuration shown. *)
Definition at_transcription (E : Env) (st : state) : state :=
  snd (show_translator_info (snd (time_time E st))).

(** What [show_translator_info] prints for [g]. *)
Definition info_events (g : GameTranslator) : list event :=
  [ EvPrint OutRule;
    EvPrint (OutTranscriptionModel (transcription_model g));
    EvPrint (OutPrerecordedFile
               (if pre_recorded g then filepath g else lit "None"));
    EvPrint (OutInputLanguage (input_language g));
    EvPrint (OutOutputLanguage (output_language g));
    EvPrint OutRule ].

(** The world after the last three statements of [translate], run in [st]
    with the start time [start_time]: the end time is read, [elapsed_time]
    assigned and shown. *)
Definition timed (E : Env) (start_time : float) (st : state) : state :=
  snd ((end_time <- time_time E ;;
        set_elapsed_time (PyFloat (PrimFloat.sub end_time start_time)) ;;
        show_time) st).

(** The run started in [st] reaches the last statements of [translate]: the
    engine is the supported one, the transcription stage returns a non-empty
    text and the translation stage returns. *)
Definition completes (E : Env) (st : state) : bool :=
  eqb (transcription_model (self st)) (lit "whisper_cpp")
  && match whisper_cpp_transcription E (at_transcription E st) with
     | (Ret (c :: t), st1) =>
         match llama_translation E (c :: t) st1 with
         | (Ret _, _) => true
         | (Raise _, _) => false
         end
     | _ => false
     end.

(** The duration that a run started in [st] measures: the second reading of
    the clock minus the first. *)
Definition measured (E : Env) (st : state) : number :=
  PyFloat (PrimFloat.sub (clock E (S (ticks st))) (clock E (ticks st))).

Arguments lit : simpl never.
Arguments strip : simpl never.
Arguments replace : simpl never.
Arguments whisper_command : simpl never.
Arguments llama_command : simpl never.
Arguments result_file : simpl never.
Arguments PrimFloat.sub : simpl never.

(** * Properties *)

(** ** Strings *)

Lemma eqb_eq (a b : str) : eqb a b = true <-> a = b.
Proof.
  revert b; induction a as [|x a IH]; intros [|y b]; cbn; split;
    try congruence; try reflexivity.
  - intros H. apply andb_true_iff in H as [Hx Hab].
    apply N.eqb_eq in Hx. apply IH in Hab. congruence.
  - intros H. injection H as -> ->.
    apply andb_true_iff. split; [apply N.eqb_refl | now apply IH].
Qed.

Lemma eqb_neq (a b : str) : eqb a b = false <-> a <> b.
Proof.
  split.
  - intros H Hab. apply eqb_eq in Hab. congruence.
  - intros H. destruct (eqb a b) eqn:Hab; [|reflexivity].
    apply eqb_eq in Hab. contradiction.
Qed.

Lemma lstrip_split (s : str) :
  exists l, s = l ++ lstrip s /\ forallb isspace l = true.
Proof.
  induction s as [|c s [l [Hs Hl]]]; cbn.
  - exists []. split; reflexivity.
  - destruct (isspace c) eqn:Hc.
    + exists (c :: l). cbn. rewrite Hc, Hl. split; [congruence | reflexivity].
    + exists []. split; reflexivity.
Qed.

Lemma lstrip_head (s : str) (c : N) (t : str) :
  lstrip s = c :: t -> isspace c = false.
Proof.
  induction s as [|d s IH]; cbn; [discriminate|].
  destruct (isspace d) eqn:Hd; [exact IH|].
  intros H. injection H as <- _. exact Hd.
Qed.

Lemma rstrip_split (s : str) :
  exists r, s = rstrip s ++ r /\ forallb isspace r = true.
Proof.
  unfold rstrip. destruct (lstrip_split (rev s)) as [l [Hs Hl]].
  exists (rev l). split.
  - rewrite <- rev_app_distr, <- Hs. symmetry. apply rev_involutive.
  - rewrite forallb_forall in *. intros x Hx. apply Hl. now apply in_rev.
Qed.

Lemma rstrip_last (s t : str) (c : N) :
  rstrip s = t ++ [c] -> isspace c = false.
Proof.
  unfold rstrip. intros H. apply (f_equal (@rev N)) in H.
  rewrite rev_involutive, rev_app_distr in H. cbn in H.
  exact (lstrip_head _ _ _ H).
Qed.

Lemma rstrip_head (s : str) (c : N) (t : str) :
  rstrip s = c :: t -> hd_error s = Some c.
Proof.
  destruct (rstrip_split s) as [r [Hs _]]. intros H.
  rewrite Hs, H. reflexivity.
Qed.

(** ** Traces *)

Lemma spawned_app (a b : list event) : spawned (a ++ b) = spawned a ++ spawned b.
Proof.
  induction a as [|[o|cmd c|p|v] a IH]; cbn; rewrite ?IH; reflexivity.
Qed.

Lemma elapsed_time_writes_app (a b : list event) :
  elapsed_time_writes (a ++ b) = elapsed_time_writes a ++ elapsed_time_writes b.
Proof.
  induction a as [|[o|cmd c|p|v] a IH]; cbn; rewrite ?IH; reflexivity.
Qed.

Lemma spawned_In (cmd : list str) (c : bool) (tr : list event) :
  In (EvSpawn cmd c) tr -> In cmd (spawned tr).
Proof.
  induction tr as [|[o|cmd' c'|p|v] tr IH]; cbn; intros H;
    try (destruct H as [H|H]; [discriminate | now apply IH]).
  - contradiction.
  - destruct H as [H|H]; [left; congruence | right; now apply IH].
Qed.

Lemma whisper_is_not_llama (g g' : GameTranslator) (text : str) :
  whisper_command g <> llama_command g' text.
Proof.
  unfold whisper_command, llama_command. intros H.
  apply (f_equal (@hd str [])) in H. cbn [hd] in H.
  vm_compute in H. discriminate.
Qed.

(** ** The two stages, case by case *)

Section Stages.

Variable E : Env.

Lemma whisper_cpp_transcription_eq (st : state) :
  whisper_cpp_transcription E st =
  let g := self st in
  let cmd := whisper_command g in
  if pre_recorded g then
    match run_process E cmd (files st) with
    | (SpawnFailed errno, _) =>
        (Raise (OSError errno),
         {| self := g; files := files st; ticks := ticks st;
            trace := trace st ++ [EvSpawn cmd false] |})
    | (NullByte, _) =>
        (Raise (ValueError "embedded null byte"),
         {| self := g; files := files st; ticks := ticks st;
            trace := trace st ++ [EvSpawn cmd false] |})
    | (NotText, fs) =>
        (Raise UnicodeDecodeError,
         {| self := g; files := fs; ticks := ticks st;
            trace := trace st ++ [EvSpawn cmd false] |})
    | (Exited code out, fs) =>
        if (code =? 0)%Z then
          let st' := {| self := g; files := fs; ticks := ticks st;
                        trace := (trace st ++ [EvSpawn cmd false])
                                   ++ [EvOpen (result_file g)] |} in
          match fs (result_file g) with
          | Plain (Some content) => (Ret (strip content), st')
          | Plain None => (Raise (FileNotFoundError (result_file g)), st')
          | Binary => (Raise UnicodeDecodeError, st')
          | Directory => (Raise (IsADirectoryError (result_file g)), st')
          | Forbidden => (Raise (PermissionError (result_file g)), st')
          end
        else
          (Ret [],
           {| self := g; files := fs; ticks := ticks st;
              trace := (trace st ++ [EvSpawn cmd false])
                         ++ [EvPrint (OutTranscriptionError
                                        (CalledProcessError code cmd))] |})
    end
  else
    (Raise (NotImplementedError
              "Прямая запись аудио не реализована в этой версии."), st).
Proof.
  unfold whisper_cpp_transcription, bind, get_self, try_except,
    subprocess_run, open_read, bind, emit, print, emit, raise, ret.
  cbn. destruct (pre_recorded (self st)); cbn; [|reflexivity].
  destruct (run_process E (whisper_command (self st)) (files st))
    as [[errno | code out | | ] fs]; cbn; try reflexivity.
  destruct (code =? 0)%Z; cbn; [|reflexivity].
  destruct (fs (result_file (self st))) as [[content|]| | |]; reflexivity.
Qed.

Lemma llama_translation_eq (text : str) (st : state) :
  llama_translation E text st =
  let g := self st in
  let cmd := llama_command g text in
  match run_process E cmd (files st) with
  | (SpawnFailed errno, _) =>
      (Raise (OSError errno),
       {| self := g; files := files st; ticks := ticks st;
          trace := trace st ++ [EvSpawn cmd true] |})
  | (NullByte, _) =>
      (Raise (ValueError "embedded null byte"),
       {| self := g; files := files st; ticks := ticks st;
          trace := trace st ++ [EvSpawn cmd true] |})
  | (NotText, fs) =>
      (Raise UnicodeDecodeError,
       {| self := g; files := fs; ticks := ticks st;
          trace := trace st ++ [EvSpawn cmd true] |})
  | (Exited code out, fs) =>
      if (code =? 0)%Z then
        (Ret (strip out),
         {| self := g; files := fs; ticks := ticks st;
            trace := trace st ++ [EvSpawn cmd true] |})
      else
        (Ret [],
         {| self := g; files := fs; ticks := ticks st;
            trace := (trace st ++ [EvSpawn cmd true])
                       ++ [EvPrint (OutTranslationError
                                      (CalledProcessError code cmd))] |})
  end.
Proof.
  unfold llama_translation, bind, get_self, try_except,
    subprocess_run, bind, emit, print, emit, raise, ret.
  cbn.
  destruct (run_process E (llama_command (self st) text) (files st))
    as [[errno | code out | | ] fs]; cbn; try reflexivity.
  destruct (code =? 0)%Z; reflexivity.
Qed.

End Stages.

(** ** The orchestrator *)

Section Orchestrator.

Variable E : Env.

Lemma at_transcription_eq (st : state) :
  at_transcription E st =
  {| self := self st; files := files st; ticks := S (ticks st);
     trace := trace st ++ info_events (self st) |}.
Proof.
  unfold at_transcription, show_translator_info, time_time, bind, get_self,
    print, emit, info_events.
  cbn. repeat rewrite <- app_assoc. reflexivity.
Qed.

Lemma translate_eq (st : state) :
  translate E st =
  let st0 := at_transcription E st in
  if eqb (transcription_model (self st)) (lit "whisper_cpp") then
    match whisper_cpp_transcription E st0 with
    | (Raise e, st1) => (Raise e, st1)
    | (Ret [], st1) => (Ret [], snd (print OutTranscriptionFailed st1))
    | (Ret (c :: t), st1) =>
        match llama_translation E (c :: t) st1 with
        | (Raise e, st2) => (Raise e, st2)
        | (Ret translation, st2) =>
            (Ret translation, timed E (clock E (ticks st)) st2)
        end
    end
  else (Raise unsupported_engine, st0).
Proof.
  unfold translate, at_transcription.
  unfold bind at 1. cbn [time_time].
  unfold bind at 1.
  destruct (show_translator_info _) as [[[]|e] st0] eqn:Hinfo.
  2:{ unfold show_translator_info, bind, get_self, print, emit in Hinfo.
      cbn in Hinfo. discriminate. }
  cbn [snd].
  assert (Hself : self st0 = self st).
  { unfold show_translator_info, bind, get_self, print, emit in Hinfo.
    cbn in Hinfo. injection Hinfo as <-. reflexivity. }
  unfold bind at 1, get_self at 1. cbn [fst snd]. rewrite Hself.
  unfold bind at 1.
  destruct (eqb (transcription_model (self st)) (lit "whisper_cpp")).
  - destruct (whisper_cpp_transcription E st0) as [[[|c t]|e] st1];
      [reflexivity| |reflexivity].
    unfold bind at 1.
    destruct (llama_translation E (c :: t) st1) as [[translation|e] st2];
      [|reflexivity].
    unfold timed, bind, time_time, set_elapsed_time, show_time, get_self,
      print, emit, ret. cbn. reflexivity.
  - reflexivity.
Qed.

Lemma timed_eq (start_time : float) (st : state) :
  timed E start_time st =
  let v := PyFloat (PrimFloat.sub (clock E (ticks st)) start_time) in
  {| self := {| pre_recorded := pre_recorded (self st);
                transcription_model := transcription_model (self st);
                filepath := filepath (self st);
                input_language := input_language (self st);
                output_language := output_language (self st);
                elapsed_time := v |};
     files := files st; ticks := S (ticks st);
     trace := trace st ++ [EvSetElapsedTime v; EvPrint (OutElapsedTime v)] |}.
Proof.
  unfold timed, bind, time_time, set_elapsed_time, show_time, get_self,
    print, emit.
  cbn. rewrite <- app_assoc. reflexivity.
Qed.

(** What a call of the transcription stage leaves of the world. *)
Lemma whisper_cpp_transcription_frame (st : state) :
  let st1 := snd (whisper_cpp_transcription E st) in
  self st1 = self st /\ ticks st1 = ticks st /\
  exists evs,
    trace st1 = trace st ++ evs /\
    elapsed_time_writes evs = [] /\
    spawned evs =
      if pre_recorded (self st) then [whisper_command (self st)] else [].
Proof.
  rewrite whisper_cpp_transcription_eq. cbv zeta.
  destruct (pre_recorded (self st)).
  - destruct (run_process E _ _) as [[errno | code out | | ] fs].
    + cbn. repeat split. eexists. repeat split.
    + destruct (code =? 0)%Z.
      * cbv zeta. destruct (fs _) as [[content|]| | |]; cbn; repeat split;
          rewrite <- app_assoc; eexists; repeat split.
      * cbn. repeat split. rewrite <- app_assoc. eexists. repeat split.
    + cbn. repeat split. eexists. repeat split.
    + cbn. repeat split. eexists. repeat split.
  - cbn. repeat split. exists []. rewrite app_nil_r. repeat split.
Qed.

Lemma whisper_cpp_transcription_returns (st st1 : state) (t : str) :
  whisper_cpp_transcription E st = (Ret t, st1) ->
  pre_recorded (self st) = true.
Proof.
  rewrite whisper_cpp_transcription_eq. cbv zeta.
  destruct (pre_recorded (self st)); [reflexivity | discriminate].
Qed.

(** What a call of the translation stage leaves of the world. *)
Lemma llama_translation_frame (text : str) (st : state) :
  let st2 := snd (llama_translation E text st) in
  self st2 = self st /\ ticks st2 = ticks st /\
  exists evs,
    trace st2 = trace st ++ evs /\
    elapsed_time_writes evs = [] /\
    spawned evs = [llama_command (self st) text].
Proof.
  rewrite llama_translation_eq. cbv zeta.
  destruct (run_process E _ _) as [[errno | code out | | ] fs].
  - cbn. repeat split. eexists. repeat split.
  - destruct (code =? 0)%Z; cbn; repeat split.
    + eexists. repeat split.
    + rewrite <- app_assoc. eexists. repeat split.
  - cbn. repeat split. eexists. repeat split.
  - cbn. repeat split. eexists. repeat split.
Qed.

Lemma whisper_cpp_transcription_not_unsupported (st : state) :
  fst (whisper_cpp_transcription E st) <> Raise unsupported_engine.
Proof.
  rewrite whisper_cpp_transcription_eq. cbv zeta. unfold unsupported_engine.
  destruct (pre_recorded (self st)); [|discriminate].
  destruct (run_process E _ _) as [[errno | code out | | ] fs];
    try discriminate.
  destruct (code =? 0)%Z; [|discriminate].
  cbv zeta. destruct (fs _) as [[content|]| | |]; discriminate.
Qed.

Lemma llama_translation_not_unsupported (text : str) (st : state) :
  fst (llama_translation E text st) <> Raise unsupported_engine.
Proof.
  rewrite llama_translation_eq. cbv zeta. unfold unsupported_engine.
  destruct (run_process E _ _) as [[errno | code out | | ] fs];
    try discriminate.
  destruct (code =? 0)%Z; discriminate.
Qed.

End Orchestrator.

(** ** The pipeline *)

Section Pipeline_properties.

Variable E : Env.

(** C1. When the engine is the supported one and the transcription stage,
    called by [translate], returns the empty text, [translate] returns the
    empty string; the only command spawned during the run is that of the
    transcription engine, so the translation stage is never invoked. *)
Theorem translate_empty_transcription (st st1 : state) :
  transcription_model (self st) = lit "whisper_cpp" ->
  whisper_cpp_transcription E (at_transcription E st) = (Ret [], st1) ->
  exists st2 evs,
    translate E st = (Ret [], st2) /\
    trace st2 = trace st ++ evs /\
    spawned evs = [whisper_command (self st)] /\
    forall text capture,
      ~ In (EvSpawn (llama_command (self st) text) capture) evs.
Proof.
  intros Hm Hw.
  pose proof (whisper_cpp_transcription_frame E (at_transcription E st))
    as Hframe.
  pose proof (whisper_cpp_transcription_returns E _ _ _ Hw) as Hpre.
  rewrite Hw in Hframe. cbn [snd] in Hframe.
  rewrite Hpre in Hframe.
  destruct Hframe as (_ & _ & evs & Htr & _ & Hsp).
  rewrite at_transcription_eq in Htr, Hsp. cbn [self trace] in Htr, Hsp.
  assert (Hrun : spawned ((info_events (self st) ++ evs)
                            ++ [EvPrint OutTranscriptionFailed])
                 = [whisper_command (self st)]).
  { rewrite !spawned_app, Hsp. reflexivity. }
  exists (snd (print OutTranscriptionFailed st1)),
    ((info_events (self st) ++ evs) ++ [EvPrint OutTranscriptionFailed]).
  repeat split.
  - rewrite translate_eq. cbv zeta.
    apply eqb_eq in Hm. rewrite Hm, Hw. reflexivity.
  - unfold print, emit. cbn [snd trace].
    rewrite Htr. repeat rewrite <- app_assoc. reflexivity.
  - exact Hrun.
  - intros text capture Hin. apply spawned_In in Hin.
    rewrite Hrun in Hin. destruct Hin as [Heq|[]].
    exact (whisper_is_not_llama _ _ _ Heq).
Qed.

(** C2. When the engine is the supported one and the transcription stage
    returns a non-empty text [t], [translate] ends as the translation stage
    called on [t] does, returning what it returns, and the commands spawned
    during the run are that of the transcription engine followed by one
    invocation of the translation engine, whose prompt is
    "Translate the following text to <output_language>: <t>". *)
Theorem translate_nonempty_transcription (st st1 : state) (t : str) :
  transcription_model (self st) = lit "whisper_cpp" ->
  whisper_cpp_transcription E (at_transcription E st) = (Ret t, st1) ->
  t <> [] ->
  fst (translate E st) = fst (llama_translation E t st1) /\
  exists evs,
    trace (snd (translate E st)) = trace st ++ evs /\
    spawned evs =
      [ whisper_command (self st);
        [ lit "ollama"; lit "run"; lit "llama3";
          lit "Translate the following text to "
            ++ output_language (self st) ++ lit ": " ++ t ] ].
Proof.
  intros Hm Hw Ht.
  pose proof (whisper_cpp_transcription_frame E (at_transcription E st))
    as Hframe.
  pose proof (whisper_cpp_transcription_returns E _ _ _ Hw) as Hpre.
  rewrite Hw in Hframe. cbn [snd] in Hframe. rewrite Hpre in Hframe.
  destruct Hframe as (Hself & _ & evs & Htr & _ & Hsp).
  rewrite at_transcription_eq in Hself, Htr, Hsp.
  cbn [self trace] in Hself, Htr, Hsp.
  pose proof (llama_translation_frame E t st1) as Hl.
  cbv zeta in Hl. destruct Hl as (_ & _ & evl & Htl & _ & Hspl).
  rewrite Hself in Hspl.
  rewrite translate_eq. cbv zeta.
  apply eqb_eq in Hm. rewrite Hm, Hw.
  destruct t as [|c t]; [congruence|].
  destruct (llama_translation E (c :: t) st1) as [[translation|e] st2];
    cbn [fst snd] in *; (split; [reflexivity|]).
  - rewrite timed_eq. cbv zeta. cbn [trace].
    eexists. split.
    + rewrite Htl, Htr. repeat rewrite <- app_assoc. reflexivity.
    + rewrite !spawned_app, Hsp, Hspl. reflexivity.
  - eexists. split.
    + rewrite Htl, Htr. repeat rewrite <- app_assoc. reflexivity.
    + rewrite !spawned_app, Hsp, Hspl. reflexivity.
Qed.

(** C3. With an engine identifier other than "whisper_cpp", [translate]
    raises the "unsupported engine" [ValueError]; up to that point it has
    spawned no command and left the file system as it was. *)
Theorem translate_unsupported_engine (st : state) :
  transcription_model (self st) <> lit "whisper_cpp" ->
  exists st' evs,
    translate E st = (Raise unsupported_engine, st') /\
    trace st' = trace st ++ evs /\
    spawned evs = [] /\
    files st' = files st.
Proof.
  intros Hm. apply eqb_neq in Hm.
  exists (at_transcription E st), (info_events (self st)).
  rewrite translate_eq. cbv zeta. rewrite Hm.
  rewrite at_transcription_eq. repeat split.
Qed.

(** C6. When the transcription engine exits with status 0 and the result
    file is absent, the transcription stage raises [FileNotFoundError]: the
    failure is not turned into the empty text. *)
Theorem missing_result_file_propagates
        (st : state) (out : str) (fs : filesystem) :
  pre_recorded (self st) = true ->
  run_process E (whisper_command (self st)) (files st) = (Exited 0 out, fs) ->
  fs (result_file (self st)) = None ->
  fst (whisper_cpp_transcription E st)
    = Raise (FileNotFoundError (result_file (self st))) /\
  fst (whisper_cpp_transcription E st) <> Ret [].
Proof.
  intros Hpre Hrun Hfile.
  rewrite whisper_cpp_transcription_eq. cbv zeta.
  rewrite Hpre, Hrun. cbn. rewrite Hfile. split; [reflexivity|discriminate].
Qed.

(** C7. With [pre_recorded] false, the transcription stage raises
    [NotImplementedError] and leaves the world as it was: nothing has been
    spawned. *)
Theorem live_capture_not_implemented (st : state) :
  pre_recorded (self st) = false ->
  whisper_cpp_transcription E st
    = (Raise (NotImplementedError
                "Прямая запись аудио не реализована в этой версии."), st) /\
  spawned (trace (snd (whisper_cpp_transcription E st))) = spawned (trace st).
Proof.
  intros Hpre.
  rewrite whisper_cpp_transcription_eq. cbv zeta. rewrite Hpre.
  split; reflexivity.
Qed.


(** C5, amended. In a run that reaches the end of [translate] (supported
    engine, non-empty transcription, the translation stage returns),
    [elapsed_time] is written exactly once, after both stages and followed
    only by the report of the elapsed time, with the end reading of the
    clock minus the start reading.  In every other run (the short circuit
    on an empty transcription, a run ended by an exception) it is not
    written and the object is left as it was.  Neither stage and neither
    of the two show operations changes the object. *)
Theorem elapsed_time_written_once_at_the_end (st : state) :
  let r := fst (translate E st) in
  let st' := snd (translate E st) in
  (exists evs,
      trace st' = trace st ++ evs /\
      if completes E st then
        (exists before,
            evs = before ++ [ EvSetElapsedTime (measured E st);
                              EvPrint (OutElapsedTime (measured E st)) ] /\
            elapsed_time_writes before = []) /\
        elapsed_time_writes evs = [measured E st] /\
        elapsed_time (self st') = measured E st /\
        exists translation, r = Ret translation
      else
        elapsed_time_writes evs = [] /\
        self st' = self st /\
        (r = Ret [] \/ exists e, r = Raise e)) /\
  (forall s, self (snd (whisper_cpp_transcription E s)) = self s) /\
  (forall text s, self (snd (llama_translation E text s)) = self s) /\
  (forall s, self (snd (show_translator_info s)) = self s) /\
  (forall s, self (snd (show_time s)) = self s).
Proof.
  cbv zeta. split; [|repeat split].
  - unfold completes. rewrite translate_eq. cbv zeta.
    destruct (eqb (transcription_model (self st)) (lit "whisper_cpp"));
      cbn [andb].
    2:{ exists (info_events (self st)). rewrite at_transcription_eq.
        cbn. repeat split. right. eexists. reflexivity. }
    pose proof (whisper_cpp_transcription_frame E (at_transcription E st))
      as Hw.
    cbv zeta in Hw. destruct Hw as (Hself & Hticks & evw & Htr & Hwr & _).
    destruct (whisper_cpp_transcription E (at_transcription E st))
      as [[[|c t]|e] st1]; cbn [snd] in Hself, Hticks, Htr;
      rewrite at_transcription_eq in Hself, Hticks, Htr;
      cbn [self ticks trace] in Hself, Hticks, Htr.
    + exists ((info_events (self st) ++ evw) ++ [EvPrint OutTranscriptionFailed]).
      unfold print, emit. cbn [fst snd trace self].
      rewrite Htr. repeat rewrite <- app_assoc. repeat split.
      * rewrite !elapsed_time_writes_app, Hwr. reflexivity.
      * exact Hself.
      * left. reflexivity.
    + pose proof (llama_translation_frame E (c :: t) st1) as Hl.
      cbv zeta in Hl. destruct Hl as (Hself2 & Hticks2 & evl & Htr2 & Hwr2 & _).
      destruct (llama_translation E (c :: t) st1) as [[translation|e] st2];
        cbn [snd] in Hself2, Hticks2, Htr2; cbn [fst snd].
      * rewrite timed_eq. cbv zeta. cbn [trace self elapsed_time].
        rewrite Hticks2, Hticks. fold (measured E st).
        exists ((info_events (self st) ++ evw ++ evl)
                  ++ [ EvSetElapsedTime (measured E st);
                       EvPrint (OutElapsedTime (measured E st)) ]).
        split.
        { rewrite Htr2, Htr. repeat rewrite <- app_assoc. reflexivity. }
        split.
        { exists (info_events (self st) ++ evw ++ evl). split; [reflexivity|].
          rewrite !elapsed_time_writes_app, Hwr, Hwr2. reflexivity. }
        split.
        { rewrite !elapsed_time_writes_app, Hwr, Hwr2. reflexivity. }
        split; [reflexivity|]. eexists. reflexivity.
      * exists (info_events (self st) ++ evw ++ evl).
        rewrite Htr2, Htr. repeat rewrite <- app_assoc. repeat split.
        -- rewrite !elapsed_time_writes_app, Hwr, Hwr2. reflexivity.
        -- congruence.
        -- right. eexists. reflexivity.
    + exists (info_events (self st) ++ evw). cbn [fst snd].
      rewrite Htr. repeat rewrite <- app_assoc. repeat split.
      * rewrite !elapsed_time_writes_app, Hwr. reflexivity.
      * exact Hself.
      * right. eexists. reflexivity.
  - intros s. apply (whisper_cpp_transcription_frame E s).
  - intros text s. apply (llama_translation_frame E text s).
Qed.

(** C8. On success, the transcription stage returns the contents of the
    result file, stripped, and the translation stage returns the captured
    standard output, stripped; and stripping a text removes a run of white
    space at each end and nothing else: what is left neither starts nor ends
    with white space. *)
Theorem stages_return_trimmed_text :
  (forall st out fs content,
      pre_recorded (self st) = true ->
      run_process E (whisper_command (self st)) (files st)
        = (Exited 0 out, fs) ->
      fs (result_file (self st)) = Some content ->
      fst (whisper_cpp_transcription E st) = Ret (strip content)) /\
  (forall text st out fs,
      run_process E (llama_command (self st) text) (files st)
        = (Exited 0 out, fs) ->
      fst (llama_translation E text st) = Ret (strip out)) /\
  (forall s,
      (exists l r,
          s = l ++ strip s ++ r /\
          forallb isspace l = true /\ forallb isspace r = true) /\
      (forall c t, strip s = c :: t -> isspace c = false) /\
      (forall t c, strip s = t ++ [c] -> isspace c = false)).
Proof.
  split; [|split].
  - intros st out fs content Hpre Hrun Hfile.
    rewrite whisper_cpp_transcription_eq. cbv zeta.
    rewrite Hpre, Hrun. cbn. rewrite Hfile. reflexivity.
  - intros text st out fs Hrun.
    rewrite llama_translation_eq. cbv zeta. rewrite Hrun. reflexivity.
  - intros s. unfold strip. split; [|split].
    + destruct (lstrip_split s) as [l [Hl Hlw]].
      destruct (rstrip_split (lstrip s)) as [r [Hr Hrw]].
      exists l, r. split; [|split; assumption].
      rewrite <- Hr. exact Hl.
    + intros c t H. apply rstrip_head in H.
      destruct (lstrip s) as [|d u] eqn:Hs; [discriminate|].
      cbn in H. injection H as ->. exact (lstrip_head _ _ _ Hs).
    + intros t c H. exact (rstrip_last _ _ _ H).
Qed.

(** C9. The constructor stores [input_language] and [output_language]
    lower-cased, and each stage puts the stored value in the command it
    spawns: the transcription stage passes the lower-cased input language
    after [-l], the translation stage writes the lower-cased output language
    into its prompt. *)
Theorem languages_are_lowercased
        (engine path input output text : str) (prerecorded : bool)
        (fs : filesystem) (n : nat) (tr : list event) :
  let g := __init__ E engine path prerecorded input output in
  input_language g = lower E input /\
  output_language g = lower E output /\
  (exists evs,
      trace (snd (whisper_cpp_transcription E
                    {| self := __init__ E engine path true input output;
                       files := fs; ticks := n; trace := tr |}))
      = tr ++ EvSpawn [ lit "./whisper.cpp/main";
                        lit "-m"; lit "./whisper.cpp/models/ggml-base.en.bin";
                        lit "-f"; path;
                        lit "-l"; lower E input;
                        lit "-otxt" ] false :: evs) /\
  (exists evs,
      trace (snd (llama_translation E text
                    {| self := g; files := fs; ticks := n; trace := tr |}))
      = tr ++ EvSpawn [ lit "ollama"; lit "run"; lit "llama3";
                        lit "Translate the following text to "
                          ++ lower E output ++ lit ": " ++ text ] true
                :: evs).
Proof.
  cbv zeta. split; [reflexivity|]. split; [reflexivity|]. split.
  - rewrite whisper_cpp_transcription_eq. cbv zeta.
    cbn [self files ticks trace pre_recorded __init__].
    unfold whisper_command, whisper_path, model_path.
    cbn [filepath input_language].
    destruct (run_process E _ fs) as [[errno | code out | | ] fs'].
    + exists []. reflexivity.
    + destruct (code =? 0)%Z.
      * cbv zeta. destruct (fs' _) as [[content|]| | |]; cbn [snd trace];
          rewrite <- app_assoc; eexists; reflexivity.
      * cbn [snd trace]. rewrite <- app_assoc. eexists. reflexivity.
    + exists []. reflexivity.
    + exists []. reflexivity.
  - rewrite llama_translation_eq. cbv zeta.
    cbn [self files ticks trace __init__].
    unfold llama_command, prompt. cbn [output_language].
    destruct (run_process E _ fs) as [[errno | code out | | ] fs'].
    + exists []. reflexivity.
    + destruct (code =? 0)%Z; cbn [snd trace].
      * exists []. reflexivity.
      * rewrite <- app_assoc. eexists. reflexivity.
    + exists []. reflexivity.
    + exists []. reflexivity.
Qed.

End Pipeline_properties.

(** ** The command line *)

Lemma RefParser_choices (argv : list str) (a : Args.t) :
  RefParser.parse_args argv = inl a ->
  In (Args.transcription_model a) transcription_model_choices.
Proof.
  unfold RefParser.parse_args.
  destruct (RefParser.scan argv RefParser.nothing)
    as [[[f|] [m|] pre [i|] [o|]]|]; try discriminate.
  destruct (existsb (eqb m) transcription_model_choices) eqn:Hm;
    [|discriminate].
  intros H. injection H as <-. cbn [Args.transcription_model].
  apply existsb_exists in Hm as [x [Hx Heq]].
  apply eqb_eq in Heq. subst x. exact Hx.
Qed.

Section CommandLine_properties.

Variable E : Env.
Variable parse_args : list str -> Args.t + Z.

Lemma translate_supported_not_unsupported (st : state) :
  transcription_model (self st) = lit "whisper_cpp" ->
  fst (translate E st) <> Raise unsupported_engine.
Proof.
  intros Hm. apply eqb_eq in Hm.
  rewrite translate_eq. cbv zeta. rewrite Hm.
  pose proof (whisper_cpp_transcription_not_unsupported
                E (at_transcription E st)) as Hw.
  destruct (whisper_cpp_transcription E (at_transcription E st))
    as [[[|c t]|e] st1]; [discriminate| |exact Hw].
  pose proof (llama_translation_not_unsupported E (c :: t) st1) as Hl.
  destruct (llama_translation E (c :: t) st1) as [[translation|e] st2];
    [discriminate|exact Hl].
Qed.

Lemma translate_keeps_engine (st : state) :
  transcription_model (self (snd (translate E st)))
  = transcription_model (self st).
Proof.
  rewrite translate_eq. cbv zeta.
  destruct (eqb (transcription_model (self st)) (lit "whisper_cpp")).
  2:{ rewrite at_transcription_eq. reflexivity. }
  pose proof (whisper_cpp_transcription_frame E (at_transcription E st))
    as Hw.
  cbv zeta in Hw. destruct Hw as (Hself & _).
  rewrite at_transcription_eq in Hself at 2. cbn [self] in Hself.
  destruct (whisper_cpp_transcription E (at_transcription E st))
    as [[[|c t]|e] st1]; cbn [snd] in *.
  - unfold print, emit. cbn [snd self]. now rewrite Hself.
  - pose proof (llama_translation_frame E (c :: t) st1) as Hl.
    cbv zeta in Hl. destruct Hl as (Hself2 & _).
    destruct (llama_translation E (c :: t) st1) as [[translation|e'] st2];
      cbn [snd] in *.
    + rewrite timed_eq. cbn. now rewrite Hself2, Hself.
    + now rewrite Hself2, Hself.
  - now rewrite Hself.
Qed.

(** X14. When the parser returns a [transcription_model] that is one of
    its [choices], a run of [main] never ends in the "unsupported engine"
    [ValueError], and when the arguments parse the translator runs with the
    engine "whisper_cpp".  [translate] raises that error exactly when the
    translator holds another engine identifier. *)
Theorem cli_never_reaches_unsupported_engine
        (parse_args_choices :
           forall argv a,
             parse_args argv = inl a ->
             In (Args.transcription_model a) transcription_model_choices)
        (argv : list str) (st : state) :
  fst (main E parse_args argv st) <> Raise unsupported_engine /\
  (forall a,
      parse_args argv = inl a ->
      transcription_model (self (snd (main E parse_args argv st)))
      = lit "whisper_cpp") /\
  (forall st0,
      fst (translate E st0) = Raise unsupported_engine <->
      transcription_model (self st0) <> lit "whisper_cpp").
Proof.
  assert (Hengine : forall a, parse_args argv = inl a ->
                              Args.transcription_model a = lit "whisper_cpp").
  { intros a Ha. apply parse_args_choices in Ha.
    destruct Ha as [Ha|[]]. symmetry. exact Ha. }
  split; [|split].
  - unfold main.
    destruct (parse_args argv) as [a|status] eqn:Hparse; [|discriminate].
    specialize (Hengine a eq_refl).
    unfold bind at 1. cbn [construct].
    unfold bind.
    match goal with |- context [translate E ?s] => set (st0 := s) end.
    pose proof (translate_supported_not_unsupported st0 Hengine) as Hno.
    destruct (translate E st0) as [[r|e] st1]; [discriminate|].
    cbn [fst] in *. intros Heq. apply Hno. congruence.
  - intros a Ha. unfold main. rewrite Ha.
    unfold bind at 1. cbn [construct].
    unfold bind.
    match goal with |- context [translate E ?s] => set (st0 := s) end.
    pose proof (translate_keeps_engine st0) as Hkeep.
    destruct (translate E st0) as [[r|e] st1]; cbn [snd] in *;
      unfold print, emit; cbn [snd self]; rewrite Hkeep;
      exact (Hengine a Ha).
  - intros st0. split.
    + intros Hraise Hm.
      exact (translate_supported_not_unsupported st0 Hm Hraise).
    + intros Hm. apply eqb_neq in Hm.
      rewrite translate_eq. cbv zeta. rewrite Hm. reflexivity.
Qed.

End CommandLine_properties.

(** ** Concrete runs *)

(** Scenario A: the engine hears "Hello world" and the model answers
    "Привет мир". *)
Example scenario_A :
  fst (translate hello (a_wav hello)) = Ret privet_mir /\
  elapsed_time (self (snd (translate hello (a_wav hello)))) = PyFloat 2.5.
Proof. split; vm_compute; reflexivity. Qed.

(** Scenario B: the transcription engine exits with status 1. *)
Example scenario_B :
  fst (translate whisper_exits_nonzero (a_wav whisper_exits_nonzero)) = Ret [] /\
  List.length
    (spawned (trace (snd (translate whisper_exits_nonzero
                                    (a_wav whisper_exits_nonzero))))) = 1.
Proof. split; vm_compute; reflexivity. Qed.

(** Scenario C: the engine identifier "unknown_engine". *)
Example scenario_C :
  fst (translate hello (a_wav_unknown_engine hello)) = Raise unsupported_engine /\
  spawned (trace (snd (translate hello (a_wav_unknown_engine hello)))) = [].
Proof. split; vm_compute; reflexivity. Qed.

(** Scenario D: the engine hears "Bonjour" and the model exits with
    status 1. *)
Example scenario_D :
  fst (translate bonjour (a_wav bonjour)) = Ret [] /\
  elapsed_time (self (snd (translate bonjour (a_wav bonjour)))) = PyFloat 2.5.
Proof. split; vm_compute; reflexivity. Qed.

(** The result file of [a.wav] is [a.wav] itself, that of [a.wav.txt] is
    [a.txt]. *)
Example result_file_of_a_wav :
  result_file (self (a_wav hello)) = lit "a.wav" /\
  replace (lit ".wav.txt") (lit ".txt") (lit "a.wav.txt") = lit "a.txt".
Proof. split; vm_compute; reflexivity. Qed.

(** C1 at scenario B. *)
Lemma translate_empty_transcription_witness :
  transcription_model (self (a_wav whisper_exits_nonzero)) = lit "whisper_cpp" /\
  fst (whisper_cpp_transcription
         whisper_exits_nonzero
         (at_transcription whisper_exits_nonzero (a_wav whisper_exits_nonzero)))
  = Ret [] /\
  exists st2 evs,
    translate whisper_exits_nonzero (a_wav whisper_exits_nonzero)
    = (Ret [], st2) /\
    trace st2 = trace (a_wav whisper_exits_nonzero) ++ evs /\
    spawned evs = [whisper_command (self (a_wav whisper_exits_nonzero))] /\
    forall text capture,
      ~ In (EvSpawn (llama_command (self (a_wav whisper_exits_nonzero)) text)
                    capture) evs.
Proof.
  split; [reflexivity|]. split; [vm_compute; reflexivity|].
  apply (translate_empty_transcription
           whisper_exits_nonzero (a_wav whisper_exits_nonzero)
           (snd (whisper_cpp_transcription
                   whisper_exits_nonzero
                   (at_transcription whisper_exits_nonzero
                                     (a_wav whisper_exits_nonzero))))).
  - reflexivity.
  - vm_compute. reflexivity.
Defined.

(** C2 at scenario A. *)
Lemma translate_nonempty_transcription_witness :
  fst (whisper_cpp_transcription hello (at_transcription hello (a_wav hello)))
  = Ret (lit "Hello world") /\
  fst (translate hello (a_wav hello))
  = fst (llama_translation
           hello (lit "Hello world")
           (snd (whisper_cpp_transcription
                   hello (at_transcription hello (a_wav hello))))) /\
  exists evs,
    trace (snd (translate hello (a_wav hello)))
    = trace (a_wav hello) ++ evs /\
    spawned evs =
      [ whisper_command (self (a_wav hello));
        [ lit "ollama"; lit "run"; lit "llama3";
          lit "Translate the following text to "
            ++ output_language (self (a_wav hello)) ++ lit ": "
            ++ lit "Hello world" ] ].
Proof.
  split; [vm_compute; reflexivity|].
  apply (translate_nonempty_transcription
           hello (a_wav hello)
           (snd (whisper_cpp_transcription
                   hello (at_transcription hello (a_wav hello))))
           (lit "Hello world")).
  - reflexivity.
  - vm_compute. reflexivity.
  - discriminate.
Defined.

(** C3 at scenario C. *)
Lemma translate_unsupported_engine_witness :
  transcription_model (self (a_wav_unknown_engine hello)) <> lit "whisper_cpp" /\
  exists st' evs,
    translate hello (a_wav_unknown_engine hello)
    = (Raise unsupported_engine, st') /\
    trace st' = trace (a_wav_unknown_engine hello) ++ evs /\
    spawned evs = [] /\
    files st' = files (a_wav_unknown_engine hello).
Proof.
  assert (H : transcription_model (self (a_wav_unknown_engine hello))
              <> lit "whisper_cpp") by (vm_compute; discriminate).
  split; [exact H|].
  exact (translate_unsupported_engine hello (a_wav_unknown_engine hello) H).
Defined.



(** C5: in scenario B the pipeline short-circuits and [elapsed_time] is never
    written: it still holds the [0] of the constructor. *)
Lemma short_circuit_never_writes_elapsed_time :
  let E := whisper_exits_nonzero in
  let st := a_wav E in
  fst (translate E st) = Ret [] /\
  elapsed_time_writes (trace (snd (translate E st))) = [] /\
  List.length (elapsed_time_writes (trace (snd (translate E st)))) <> 1 /\
  elapsed_time (self (snd (translate E st))) = PyInt 0.
Proof.
  cbv zeta. repeat split; try (vm_compute; reflexivity).
  vm_compute. discriminate.
Qed.

(** C6: the transcription engine succeeds and writes nothing, on a file
    system without the result file. *)
Lemma missing_result_file_propagates_witness :
  let E := whisper_writes_nothing in
  let st := start (translator E "whisper_cpp" "a.wav" true "English" "Russian")
                  no_files in
  fst (whisper_cpp_transcription E st)
  = Raise (FileNotFoundError (result_file (self st))) /\
  fst (whisper_cpp_transcription E st) <> Ret [].
Proof.
  exact (missing_result_file_propagates
           whisper_writes_nothing
           (start (translator whisper_writes_nothing
                              "whisper_cpp" "a.wav" true "English" "Russian")
                  no_files)
           [] no_files eq_refl eq_refl eq_refl).
Defined.

(** C7 without [--pre_recorded]. *)
Lemma live_capture_not_implemented_witness :
  pre_recorded (self (a_wav_live hello)) = false /\
  fst (whisper_cpp_transcription hello (a_wav_live hello))
  = Raise (NotImplementedError
             "Прямая запись аудио не реализована в этой версии.").
Proof.
  split; [reflexivity|].
  rewrite (proj1 (live_capture_not_implemented hello (a_wav_live hello) eq_refl)).
  reflexivity.
Defined.

(** C8 at scenario A. *)
Lemma stages_return_trimmed_text_witness :
  fst (whisper_cpp_transcription hello (a_wav hello))
  = Ret (strip (lit " Hello world ")) /\
  strip (lit " Hello world ") = lit "Hello world" /\
  fst (llama_translation hello (lit "Hello world") (a_wav hello))
  = Ret (strip privet_mir_nl) /\
  strip privet_mir_nl = privet_mir.
Proof.
  split; [|split; [vm_compute; reflexivity|split; [|vm_compute; reflexivity]]].
  - exact (proj1 (stages_return_trimmed_text hello)
                 (a_wav hello) [] (one_file (lit "a.wav") (lit " Hello world "))
                 (lit " Hello world ") eq_refl eq_refl eq_refl).
  - exact (proj1 (proj2 (stages_return_trimmed_text hello))
                 (lit "Hello world") (a_wav hello) privet_mir_nl
                 (files (a_wav hello)) eq_refl).
Defined.

(** X14 with the reference parser, on a command line that asks for an
    unknown engine and on one that asks for whisper_cpp. *)
Lemma cli_never_reaches_unsupported_engine_witness :
  fst (main hello RefParser.parse_args (argv_a_wav "unknown_engine")
            (a_wav hello)) = Raise (SystemExit 2) /\
  fst (main hello RefParser.parse_args (argv_a_wav "unknown_engine")
            (a_wav hello)) <> Raise unsupported_engine /\
  fst (main hello RefParser.parse_args (argv_a_wav "whisper_cpp")
            (a_wav hello)) = Ret tt /\
  fst (main hello RefParser.parse_args (argv_a_wav "whisper_cpp")
            (a_wav hello)) <> Raise unsupported_engine.
Proof.
  split; [vm_compute; reflexivity|]. split.
  - exact (proj1 (cli_never_reaches_unsupported_engine
                    hello RefParser.parse_args RefParser_choices
                    (argv_a_wav "unknown_engine") (a_wav hello))).
  - split; [vm_compute; reflexivity|].
    exact (proj1 (cli_never_reaches_unsupported_engine
                    hello RefParser.parse_args RefParser_choices
                    (argv_a_wav "whisper_cpp") (a_wav hello))).
Defined.

(** * Further properties of the code *)

(** ** The path of the result file *)

Lemma startswith_app (p r : str) : startswith p (p ++ r) = true.
Proof.
  induction p as [|x p IH]; cbn; [reflexivity|].
  rewrite N.eqb_refl. exact IH.
Qed.

Lemma startswith_prefix (p s : str) :
  startswith p s = true -> exists r, s = p ++ r.
Proof.
  revert s. induction p as [|x p IH]; intros s H.
  - exists s. reflexivity.
  - destruct s as [|y s]; cbn in H; [discriminate|].
    apply andb_true_iff in H as [Hxy Hps].
    apply N.eqb_eq in Hxy. destruct (IH s Hps) as [r Hr].
    exists r. cbn. congruence.
Qed.

Lemma replace_scan_skips (old new s : str) :
  replace_scan old new (List.length s) s = [].
Proof.
  induction s as [|c s IH]; cbn; [reflexivity|exact IH].
Qed.

(** A text without occurrence of [old] is left as it is. *)
Lemma replace_scan_absent (old new s : str) :
  (forall l r, s <> l ++ old ++ r) ->
  replace_scan old new 0 s = s.
Proof.
  induction s as [|c s IH]; intros Habsent; cbn [replace_scan];
    [reflexivity|].
  destruct (startswith old (c :: s)) eqn:Hp.
  - exfalso. apply startswith_prefix in Hp as [r Hr].
    exact (Habsent [] r Hr).
  - f_equal. apply IH. intros l r Hs.
    apply (Habsent (c :: l) r). cbn. congruence.
Qed.

(** A text that ends with its first occurrence of [old]. *)
Lemma replace_scan_suffix (c : N) (old new base : str) :
  (forall l r, List.length l < List.length base ->
               base ++ c :: old <> l ++ (c :: old) ++ r) ->
  replace_scan (c :: old) new 0 (base ++ c :: old) = base ++ new.
Proof.
  induction base as [|b base IH]; intros Hfirst.
  - pose proof (startswith_app (c :: old) []) as Hp.
    rewrite app_nil_r in Hp.
    cbn [app replace_scan]. rewrite Hp.
    cbn [List.length pred]. rewrite replace_scan_skips. apply app_nil_r.
  - cbn [app replace_scan].
    destruct (startswith (c :: old) (b :: base ++ c :: old)) eqn:Hp.
    + exfalso. apply startswith_prefix in Hp as [r Hr].
      apply (Hfirst [] r); [cbn; lia|exact Hr].
    + f_equal. apply IH. intros l r Hlen Hs.
      apply (Hfirst (b :: l) r); [cbn; lia|].
      cbn [app] in Hs |- *. congruence.
Qed.

Lemma wav_txt_is_cons : lit ".wav.txt" = 46%N :: lit "wav.txt".
Proof. reflexivity. Qed.

Section ResultFile.

Variable E : Env.

(** X1. When the audio path holds no occurrence of ".wav.txt", the result
    file is the audio path itself: after a successful run of the engine the
    transcription stage opens the audio path, and what it does is decided by
    what that path holds: the stripped text of a text file is returned, and
    [FileNotFoundError], [UnicodeDecodeError] (an audio file that is not
    text), [IsADirectoryError] or [PermissionError] leave the stage. *)
Theorem result_file_is_audio_path
        (st : state) (out : str) (fs : filesystem) :
  (forall l r, filepath (self st) <> l ++ lit ".wav.txt" ++ r) ->
  pre_recorded (self st) = true ->
  run_process E (whisper_command (self st)) (files st) = (Exited 0 out, fs) ->
  result_file (self st) = filepath (self st) /\
  trace (snd (whisper_cpp_transcription E st))
  = trace st ++ [ EvSpawn (whisper_command (self st)) false;
                  EvOpen (filepath (self st)) ] /\
  fst (whisper_cpp_transcription E st)
  = match fs (filepath (self st)) with
    | Plain (Some content) => Ret (strip content)
    | Plain None => Raise (FileNotFoundError (filepath (self st)))
    | Binary => Raise UnicodeDecodeError
    | Directory => Raise (IsADirectoryError (filepath (self st)))
    | Forbidden => Raise (PermissionError (filepath (self st)))
    end.
Proof.
  intros Habsent Hpre Hrun.
  assert (Hrf : result_file (self st) = filepath (self st)).
  { unfold result_file, replace. rewrite wav_txt_is_cons.
    apply replace_scan_absent. rewrite <- wav_txt_is_cons. exact Habsent. }
  split; [exact Hrf|].
  rewrite whisper_cpp_transcription_eq. cbv zeta.
  rewrite Hpre, Hrun, Hrf. cbn [Z.eqb].
  destruct (fs (filepath (self st))) as [[content|]| | |]; cbn [fst snd trace];
    rewrite <- app_assoc; split; reflexivity.
Qed.

(** X2. When the audio path ends with ".wav.txt" and holds no earlier
    occurrence of it, the result file is the path with that suffix replaced
    by ".txt". *)
Theorem result_file_of_wav_txt (g : GameTranslator) (base : str) :
  filepath g = base ++ lit ".wav.txt" ->
  (forall l r, List.length l < List.length base ->
               filepath g <> l ++ lit ".wav.txt" ++ r) ->
  result_file g = base ++ lit ".txt".
Proof.
  intros Hpath Hfirst.
  unfold result_file, replace. rewrite Hpath, wav_txt_is_cons.
  apply replace_scan_suffix. rewrite <- wav_txt_is_cons, <- Hpath.
  exact Hfirst.
Qed.

End ResultFile.

Lemma a_wav_has_no_wav_txt (l r : str) : lit "a.wav" <> l ++ lit ".wav.txt" ++ r.
Proof.
  intros H. apply (f_equal (@List.length N)) in H.
  rewrite !length_app in H.
  change (List.length (lit "a.wav")) with 5 in H.
  change (List.length (lit ".wav.txt")) with 8 in H. lia.
Qed.

Lemma result_file_is_audio_path_witness :
  result_file (self (a_wav_recording dictation)) = lit "a.wav" /\
  fst (whisper_cpp_transcription dictation (a_wav_recording dictation))
  = Raise UnicodeDecodeError.
Proof.
  destruct (result_file_is_audio_path
              dictation (a_wav_recording dictation) []
              (transcript_beside (lit "a.wav") (lit "Hello world")
                                 (recording (lit "a.wav")))
              a_wav_has_no_wav_txt eq_refl eq_refl)
    as (Hfile & _ & Hrun).
  split; [exact Hfile|exact Hrun].
Defined.

Lemma result_file_of_wav_txt_witness :
  result_file (self (a_wav_txt hello)) = lit "a" ++ lit ".txt".
Proof.
  apply (result_file_of_wav_txt (self (a_wav_txt hello)) (lit "a")).
  - reflexivity.
  - intros [|x l] r Hlen H.
    + vm_compute in H. discriminate.
    + change (List.length (lit "a")) with 1 in Hlen. cbn in Hlen. lia.
Defined.

(** ** Stripped texts *)

Lemma lstrip_blank (s : str) : forallb isspace s = true -> lstrip s = [].
Proof.
  induction s as [|c s IH]; cbn; [reflexivity|].
  intros H. apply andb_true_iff in H as [Hc Hs]. rewrite Hc. exact (IH Hs).
Qed.

Lemma strip_blank (s : str) : forallb isspace s = true <-> strip s = [].
Proof.
  unfold strip. split.
  - intros H. rewrite (lstrip_blank s H). reflexivity.
  - intros H.
    destruct (lstrip_split s) as [l [Hl Hlw]].
    destruct (rstrip_split (lstrip s)) as [r [Hr Hrw]].
    rewrite H in Hr. cbn in Hr. rewrite Hr in Hl. rewrite Hl.
    rewrite forallb_app, Hlw, Hrw. reflexivity.
Qed.

Lemma lstrip_idempotent (s : str) : lstrip (lstrip s) = lstrip s.
Proof.
  induction s as [|c s IH]; cbn; [reflexivity|].
  destruct (isspace c) eqn:Hc; [exact IH|]. cbn. rewrite Hc. reflexivity.
Qed.

Lemma strip_idempotent (s : str) : strip (strip s) = strip s.
Proof.
  unfold strip.
  assert (Hl : lstrip (rstrip (lstrip s)) = rstrip (lstrip s)).
  { destruct (rstrip (lstrip s)) as [|c t] eqn:Hr; [reflexivity|].
    apply rstrip_head in Hr.
    destruct (lstrip s) as [|d u] eqn:Hs; [discriminate|].
    cbn in Hr. injection Hr as ->.
    cbn. rewrite (lstrip_head _ _ _ Hs). reflexivity. }
  rewrite Hl. unfold rstrip. rewrite rev_involutive, lstrip_idempotent.
  reflexivity.
Qed.

Section Trimmed.

Variable E : Env.

Lemma whisper_cpp_transcription_trimmed (st : state) (t : str) :
  fst (whisper_cpp_transcription E st) = Ret t -> strip t = t.
Proof.
  rewrite whisper_cpp_transcription_eq. cbv zeta.
  destruct (pre_recorded (self st)); [|discriminate].
  destruct (run_process E _ _) as [[errno | code out | | ] fs];
    try discriminate.
  destruct (code =? 0)%Z.
  - cbv zeta. destruct (fs _) as [[content|]| | |]; try discriminate.
    cbn. intros H. injection H as <-. apply strip_idempotent.
  - cbn. intros H. injection H as <-. reflexivity.
Qed.

Lemma llama_translation_trimmed (text : str) (st : state) (r : str) :
  fst (llama_translation E text st) = Ret r -> strip r = r.
Proof.
  rewrite llama_translation_eq. cbv zeta.
  destruct (run_process E _ _) as [[errno | code out | | ] fs];
    try discriminate.
  destruct (code =? 0)%Z; cbn; intros H; injection H as <-;
    [apply strip_idempotent|reflexivity].
Qed.

(** X3. A result file that holds white space only counts as a failed
    transcription: [translate] prints the failure notice and returns the
    empty string; it has spawned the transcription engine and nothing else,
    and [elapsed_time] keeps its value. *)
Theorem blank_transcript_short_circuits
        (st : state) (out content : str) (fs : filesystem) :
  transcription_model (self st) = lit "whisper_cpp" ->
  pre_recorded (self st) = true ->
  run_process E (whisper_command (self st)) (files st) = (Exited 0 out, fs) ->
  fs (result_file (self st)) = Some content ->
  forallb isspace content = true ->
  exists st',
    translate E st = (Ret [], st') /\
    trace st' =
      trace st ++ info_events (self st)
        ++ [ EvSpawn (whisper_command (self st)) false;
             EvOpen (result_file (self st));
             EvPrint OutTranscriptionFailed ] /\
    self st' = self st /\
    files st' = fs.
Proof.
  intros Hm Hpre Hrun Hfile Hblank.
  apply eqb_eq in Hm. apply strip_blank in Hblank.
  rewrite translate_eq. cbv zeta. rewrite Hm.
  rewrite whisper_cpp_transcription_eq. cbv zeta.
  rewrite at_transcription_eq. cbn [self files ticks trace].
  rewrite Hpre, Hrun. cbn [Z.eqb]. rewrite Hfile, Hblank.
  eexists. split; [reflexivity|].
  unfold print, emit. cbn [snd self files trace].
  repeat rewrite <- app_assoc. repeat split.
Qed.

(** X4. The text that [translate] returns is stripped: stripping it again
    changes nothing, so it neither starts nor ends with white space. *)
Theorem translate_returns_stripped_text (st : state) (r : str) :
  fst (translate E st) = Ret r ->
  strip r = r /\
  (forall c t, r = c :: t -> isspace c = false) /\
  (forall t c, r = t ++ [c] -> isspace c = false).
Proof.
  intros Hr.
  assert (Hs : strip r = r).
  { revert Hr. rewrite translate_eq. cbv zeta.
    destruct (eqb _ _); [|discriminate].
    destruct (whisper_cpp_transcription E (at_transcription E st))
      as [[[|c t]|e] st1]; [| |discriminate].
    - cbn. intros H. injection H as <-. reflexivity.
    - pose proof (llama_translation_trimmed (c :: t) st1) as Hl.
      destruct (llama_translation E (c :: t) st1) as [[tr|e] st2];
        [|discriminate].
      cbn in *. intros H. injection H as <-. apply Hl. reflexivity. }
  split; [exact Hs|]. split.
  - intros c t Hc. rewrite <- Hs in Hc. unfold strip in Hc.
    pose proof (rstrip_head _ _ _ Hc) as Hh.
    destruct (lstrip r) as [|d u] eqn:Hl; [discriminate|].
    cbn in Hh. injection Hh as ->. exact (lstrip_head _ _ _ Hl).
  - intros t c Hc. rewrite <- Hs in Hc. exact (rstrip_last _ _ _ Hc).
Qed.

(** X5. The transcription stage returns the empty text in exactly two
    cases: the engine exits with a non-zero status, or it exits with status 0
    and the result file holds white space only. *)
Theorem whisper_cpp_transcription_empty_iff (st : state) :
  fst (whisper_cpp_transcription E st) = Ret [] <->
  pre_recorded (self st) = true /\
  exists code out fs,
    run_process E (whisper_command (self st)) (files st)
      = (Exited code out, fs) /\
    (code <> 0%Z \/
     exists content,
       fs (result_file (self st)) = Some content /\
       forallb isspace content = true).
Proof.
  rewrite whisper_cpp_transcription_eq. cbv zeta.
  destruct (pre_recorded (self st)).
  2:{ split; [discriminate|]. intros [H _]. discriminate. }
  destruct (run_process E _ _) as [[errno | code out | | ] fs];
    try (split; [discriminate|];
         intros [_ (code & out & fs' & H & _)]; discriminate).
  destruct (code =? 0)%Z eqn:Hcode.
  - apply Z.eqb_eq in Hcode. subst code. cbv zeta.
    destruct (fs (result_file (self st))) as [[content|]| | |] eqn:Hfile;
      cbn;
      try (split; [discriminate|];
           intros [_ (code & out' & fs' & H & Hcase)];
           injection H as <- <- <-;
           destruct Hcase as [Hne | (c & Hc & _)];
           [congruence|]; rewrite Hfile in Hc; discriminate).
    split.
    + intros H. injection H as H. apply strip_blank in H.
      split; [reflexivity|]. exists 0%Z, out, fs.
      split; [reflexivity|]. right. exists content.
      split; [exact Hfile|exact H].
    + intros [_ (code & out' & fs' & H & Hcase)].
      injection H as <- <- <-. destruct Hcase as [Hne | (c & Hc & Hb)];
        [congruence|].
      rewrite Hfile in Hc. injection Hc as <-.
      apply strip_blank in Hb. rewrite Hb. reflexivity.
  - apply Z.eqb_neq in Hcode. cbn. split; [|reflexivity].
    intros _. split; [reflexivity|]. exists code, out, fs.
    split; [reflexivity|]. left. exact Hcode.
Qed.

End Trimmed.

Lemma blank_transcript_short_circuits_witness :
  forallb isspace [32; 9; 10; 160; 8195; 12288]%N = true /\
  exists st',
    translate silence (a_wav silence) = (Ret [], st') /\
    trace st' =
      trace (a_wav silence) ++ info_events (self (a_wav silence))
        ++ [ EvSpawn (whisper_command (self (a_wav silence))) false;
             EvOpen (result_file (self (a_wav silence)));
             EvPrint OutTranscriptionFailed ] /\
    self st' = self (a_wav silence) /\
    files st' = one_file (lit "a.wav") [32; 9; 10; 160; 8195; 12288]%N.
Proof.
  split; [reflexivity|].
  exact (blank_transcript_short_circuits
           silence (a_wav silence) [] [32; 9; 10; 160; 8195; 12288]%N
           (one_file (lit "a.wav") [32; 9; 10; 160; 8195; 12288]%N)
           eq_refl eq_refl eq_refl eq_refl eq_refl).
Defined.

Lemma translate_returns_stripped_text_witness :
  fst (translate hello (a_wav hello)) = Ret privet_mir /\
  strip privet_mir = privet_mir.
Proof.
  assert (H : fst (translate hello (a_wav hello)) = Ret privet_mir)
    by (vm_compute; reflexivity).
  split; [exact H|].
  exact (proj1 (translate_returns_stripped_text hello (a_wav hello)
                                                privet_mir H)).
Defined.

(** ** Exceptions *)

Section Exceptions.

Variable E : Env.

(** X6. With [pre_recorded] true, the failures of the transcription stage
    other than a non-zero exit are not handled: the [OSError] of a failed
    spawn, the [ValueError] of a NUL character in the command, and, after an
    exit with status 0, the [UnicodeDecodeError], [IsADirectoryError] or
    [PermissionError] of a result file that cannot be read as text all leave
    the stage, and nothing is reported. *)
Theorem transcription_failures_propagate
        (st : state) (out : str) (fs : filesystem) :
  pre_recorded (self st) = true ->
  let cmd := whisper_command (self st) in
  let rf := result_file (self st) in
  let spawned_only :=
    {| self := self st; files := files st; ticks := ticks st;
       trace := trace st ++ [EvSpawn cmd false] |} in
  let opened :=
    {| self := self st; files := fs; ticks := ticks st;
       trace := trace st ++ [EvSpawn cmd false; EvOpen rf] |} in
  (forall errno,
      fst (run_process E cmd (files st)) = SpawnFailed errno ->
      whisper_cpp_transcription E st = (Raise (OSError errno), spawned_only)) /\
  (fst (run_process E cmd (files st)) = NullByte ->
   whisper_cpp_transcription E st
   = (Raise (ValueError "embedded null byte"), spawned_only)) /\
  (run_process E cmd (files st) = (Exited 0 out, fs) ->
   (fs rf = Binary ->
    whisper_cpp_transcription E st = (Raise UnicodeDecodeError, opened)) /\
   (fs rf = Directory ->
    whisper_cpp_transcription E st = (Raise (IsADirectoryError rf), opened)) /\
   (fs rf = Forbidden ->
    whisper_cpp_transcription E st = (Raise (PermissionError rf), opened))).
Proof.
  intros Hpre. cbv zeta.
  rewrite whisper_cpp_transcription_eq. cbv zeta. rewrite Hpre.
  split; [|split].
  - intros errno H.
    destruct (run_process E _ _) as [r fs']. cbn in H. subst r. reflexivity.
  - intros H.
    destruct (run_process E _ _) as [r fs']. cbn in H. subst r. reflexivity.
  - intros Hrun. rewrite Hrun. cbn [Z.eqb]. cbv zeta.
    repeat split; intros Hfile; rewrite Hfile, <- app_assoc; reflexivity.
Qed.

(** X7. The failures of the translation stage other than a non-zero exit
    are not handled: the [OSError] of a failed spawn, the [ValueError] of a
    NUL character in the command (a transcript with a NUL), and the
    [UnicodeDecodeError] of an output that is not text all leave the stage
    after the one attempted spawn, and nothing is reported. *)
Theorem translation_failures_propagate (text : str) (st : state) :
  let cmd := llama_command (self st) text in
  (forall errno,
      fst (run_process E cmd (files st)) = SpawnFailed errno ->
      llama_translation E text st
      = (Raise (OSError errno),
         {| self := self st; files := files st; ticks := ticks st;
            trace := trace st ++ [EvSpawn cmd true] |})) /\
  (fst (run_process E cmd (files st)) = NullByte ->
   llama_translation E text st
   = (Raise (ValueError "embedded null byte"),
      {| self := self st; files := files st; ticks := ticks st;
         trace := trace st ++ [EvSpawn cmd true] |})) /\
  (forall fs,
      run_process E cmd (files st) = (NotText, fs) ->
      llama_translation E text st
      = (Raise UnicodeDecodeError,
         {| self := self st; files := fs; ticks := ticks st;
            trace := trace st ++ [EvSpawn cmd true] |})).
Proof.
  cbv zeta. rewrite llama_translation_eq. cbv zeta.
  split; [|split].
  - intros errno H.
    destruct (run_process E _ _) as [r fs']. cbn in H. subst r. reflexivity.
  - intros H.
    destruct (run_process E _ _) as [r fs']. cbn in H. subst r. reflexivity.
  - intros fs H. rewrite H. reflexivity.
Qed.

Lemma whisper_cpp_transcription_no_CalledProcessError (st : state) (e : exn) :
  fst (whisper_cpp_transcription E st) = Raise e ->
  is_CalledProcessError e = false.
Proof.
  rewrite whisper_cpp_transcription_eq. cbv zeta.
  destruct (pre_recorded (self st)).
  - destruct (run_process E _ _) as [[errno | code out | | ] fs]; cbn [fst];
      try (intros H; injection H as <-; reflexivity).
    destruct (code =? 0)%Z; [|discriminate].
    cbv zeta. destruct (fs _) as [[content|]| | |]; cbn [fst];
      try discriminate; intros H; injection H as <-; reflexivity.
  - cbn [fst]. intros H. injection H as <-. reflexivity.
Qed.

Lemma llama_translation_no_CalledProcessError
      (text : str) (st : state) (e : exn) :
  fst (llama_translation E text st) = Raise e ->
  is_CalledProcessError e = false.
Proof.
  rewrite llama_translation_eq. cbv zeta.
  destruct (run_process E _ _) as [[errno | code out | | ] fs]; cbn [fst];
    try (intros H; injection H as <-; reflexivity).
  destruct (code =? 0)%Z; discriminate.
Qed.

(** X8. [translate] handles nothing and adds one exception of its own: it
    raises [e] exactly when the engine identifier is not "whisper_cpp" and
    [e] is the "unsupported engine" error, or the transcription stage raises
    [e], or the transcription stage returns a text that is not empty and the
    translation stage, called on it, raises [e].  A [CalledProcessError]
    never leaves [translate]. *)
Theorem translate_raises_iff (st : state) (e : exn) :
  (fst (translate E st) = Raise e <->
   (transcription_model (self st) <> lit "whisper_cpp" /\
    e = unsupported_engine) \/
   (transcription_model (self st) = lit "whisper_cpp" /\
    fst (whisper_cpp_transcription E (at_transcription E st)) = Raise e) \/
   (transcription_model (self st) = lit "whisper_cpp" /\
    exists t st1,
      t <> [] /\
      whisper_cpp_transcription E (at_transcription E st) = (Ret t, st1) /\
      fst (llama_translation E t st1) = Raise e)) /\
  (fst (translate E st) = Raise e -> is_CalledProcessError e = false).
Proof.
  assert (Hiff :
    fst (translate E st) = Raise e <->
    (transcription_model (self st) <> lit "whisper_cpp" /\
     e = unsupported_engine) \/
    (transcription_model (self st) = lit "whisper_cpp" /\
     fst (whisper_cpp_transcription E (at_transcription E st)) = Raise e) \/
    (transcription_model (self st) = lit "whisper_cpp" /\
     exists t st1,
       t <> [] /\
       whisper_cpp_transcription E (at_transcription E st) = (Ret t, st1) /\
       fst (llama_translation E t st1) = Raise e)).
  { rewrite translate_eq. cbv zeta.
    destruct (eqb (transcription_model (self st)) (lit "whisper_cpp")) eqn:Hm.
    - apply eqb_eq in Hm.
      destruct (whisper_cpp_transcription E (at_transcription E st))
        as [[[|c t]|e'] st1] eqn:Hw; cbn [fst].
      + split; [discriminate|].
        intros [[Hne _] | [[_ H] | [_ (t & s1 & Ht & H & _)]]];
          [contradiction|discriminate|].
        injection H as <- _. contradiction.
      + destruct (llama_translation E (c :: t) st1) as [[tr|e''] st2] eqn:Hl;
          cbn [fst].
        * split; [discriminate|].
          intros [[Hne _] | [[_ H] | [_ (t' & s1 & _ & H & Hr)]]];
            [contradiction|discriminate|].
          injection H as <- <-. rewrite Hl in Hr. discriminate.
        * split.
          -- intros H. injection H as <-. right. right.
             split; [exact Hm|]. exists (c :: t), st1.
             split; [discriminate|]. split; [reflexivity|].
             rewrite Hl. reflexivity.
          -- intros [[Hne _] | [[_ H] | [_ (t' & s1 & _ & H & Hr)]]];
               [contradiction|discriminate|].
             injection H as <- <-. rewrite Hl in Hr. exact Hr.
      + split.
        * intros H. right. left. split; [exact Hm|exact H].
        * intros [[Hne _] | [[_ H] | [_ (t' & s1 & _ & H & _)]]];
            [contradiction|exact H|discriminate].
    - apply eqb_neq in Hm. cbn [fst]. split.
      + intros H. injection H as <-. left. split; [exact Hm|reflexivity].
      + intros [[_ ->] | [[H _] | [H _]]];
          [reflexivity|contradiction|contradiction]. }
  split; [exact Hiff|].
  intros Hraise. apply Hiff in Hraise.
  destruct Hraise as [[_ ->] | [[_ H] | [_ (t & st1 & _ & _ & H)]]].
  - reflexivity.
  - exact (whisper_cpp_transcription_no_CalledProcessError _ _ H).
  - exact (llama_translation_no_CalledProcessError _ _ _ H).
Qed.

End Exceptions.

Lemma transcription_failures_propagate_witness :
  pre_recorded (self (a_wav_recording dictation)) = true /\
  fst (whisper_cpp_transcription dictation (a_wav_recording dictation))
  = Raise UnicodeDecodeError.
Proof.
  split; [reflexivity|].
  rewrite (proj1 (proj2 (proj2 (transcription_failures_propagate
                                  dictation (a_wav_recording dictation) []
                                  (transcript_beside
                                     (lit "a.wav") (lit "Hello world")
                                     (recording (lit "a.wav")))
                                  eq_refl))
                        eq_refl)
                 eq_refl).
  reflexivity.
Defined.

Lemma translation_failures_propagate_witness :
  fst (llama_translation hello [97; 0; 98]%N (a_wav hello))
  = Raise (ValueError "embedded null byte").
Proof.
  rewrite (proj1 (proj2 (translation_failures_propagate
                           hello [97; 0; 98]%N (a_wav hello)))
                 eq_refl).
  reflexivity.
Defined.

Lemma translate_raises_iff_witness :
  fst (translate nul_transcript (a_wav nul_transcript))
  = Raise (ValueError "embedded null byte") /\
  is_CalledProcessError (ValueError "embedded null byte") = false.
Proof.
  assert (H : fst (translate nul_transcript (a_wav nul_transcript))
              = Raise (ValueError "embedded null byte"))
    by (vm_compute; reflexivity).
  split; [exact H|].
  exact (proj2 (translate_raises_iff
                  nul_transcript (a_wav nul_transcript)
                  (ValueError "embedded null byte")) H).
Defined.

(** ** Whole runs *)

Section Runs.

Variable E : Env.

(** X9. A run of [translate] never changes the configuration of the
    translator (the five attributes other than [elapsed_time]); it reads the
    clock twice when it reaches its end and once otherwise. *)
Theorem translate_keeps_configuration (st : state) :
  let g := self st in
  let g' := self (snd (translate E st)) in
  pre_recorded g' = pre_recorded g /\
  transcription_model g' = transcription_model g /\
  filepath g' = filepath g /\
  input_language g' = input_language g /\
  output_language g' = output_language g /\
  ticks (snd (translate E st))
  = if completes E st then S (S (ticks st)) else S (ticks st).
Proof.
  cbv zeta. unfold completes. rewrite translate_eq. cbv zeta.
  destruct (eqb (transcription_model (self st)) (lit "whisper_cpp"));
    cbn [andb].
  2:{ rewrite at_transcription_eq. cbn. repeat split. }
  pose proof (whisper_cpp_transcription_frame E (at_transcription E st)) as Hw.
  cbv zeta in Hw. destruct Hw as (Hself & Hticks & _).
  destruct (whisper_cpp_transcription E (at_transcription E st))
    as [[[|c t]|e] st1]; cbn [snd] in Hself, Hticks;
    rewrite at_transcription_eq in Hself, Hticks;
    cbn [self ticks] in Hself, Hticks.
  - unfold print, emit. cbn [snd self ticks]. rewrite Hself, Hticks.
    repeat split.
  - pose proof (llama_translation_frame E (c :: t) st1) as Hl.
    cbv zeta in Hl. destruct Hl as (Hself2 & Hticks2 & _).
    destruct (llama_translation E (c :: t) st1) as [[tr|e] st2];
      cbn [snd] in Hself2, Hticks2 |- *.
    + rewrite timed_eq. cbn. rewrite Hself2, Hself, Hticks2, Hticks.
      repeat split.
    + rewrite Hself2, Hself, Hticks2, Hticks. repeat split.
  - cbn [snd]. rewrite Hself, Hticks. repeat split.
Qed.

(** [translate] once the transcription engine has left a text that is not
    blank: the rest of the run is the translation stage followed by the
    timing. *)
Lemma translate_after_transcription
      (st : state) (out content : str) (fs : filesystem) :
  transcription_model (self st) = lit "whisper_cpp" ->
  pre_recorded (self st) = true ->
  run_process E (whisper_command (self st)) (files st) = (Exited 0 out, fs) ->
  fs (result_file (self st)) = Some content ->
  strip content <> [] ->
  translate E st =
  match llama_translation E (strip content)
          {| self := self st; files := fs; ticks := S (ticks st);
             trace := trace st ++ info_events (self st)
                        ++ [ EvSpawn (whisper_command (self st)) false;
                             EvOpen (result_file (self st)) ] |}
  with
  | (Raise e, st2) => (Raise e, st2)
  | (Ret translation, st2) =>
      (Ret translation, timed E (clock E (ticks st)) st2)
  end.
Proof.
  intros Hm Hpre Hrun Hfile Htext.
  apply eqb_eq in Hm.
  rewrite translate_eq. cbv zeta. rewrite Hm.
  rewrite whisper_cpp_transcription_eq. cbv zeta.
  rewrite at_transcription_eq. cbn [self files ticks trace].
  rewrite Hpre, Hrun. cbn [Z.eqb]. rewrite Hfile.
  repeat rewrite <- app_assoc. cbn [app].
  destruct (strip content) as [|c t]; [congruence|]. reflexivity.
Qed.

(** X10. When both engines succeed (the transcription engine exits with
    status 0 and leaves a text that is not blank, the model runner exits
    with status 0), [translate] returns the stripped output of the model
    runner, called on the stripped transcript; it has shown the
    configuration, spawned the two commands in that order, opened the result
    file once, then set and shown the measured time. *)
Theorem translate_success
        (st : state) (out1 content out2 : str) (fs1 fs2 : filesystem) :
  transcription_model (self st) = lit "whisper_cpp" ->
  pre_recorded (self st) = true ->
  run_process E (whisper_command (self st)) (files st)
    = (Exited 0 out1, fs1) ->
  fs1 (result_file (self st)) = Some content ->
  strip content <> [] ->
  run_process E (llama_command (self st) (strip content)) fs1
    = (Exited 0 out2, fs2) ->
  exists st',
    translate E st = (Ret (strip out2), st') /\
    trace st' =
      trace st ++ info_events (self st)
        ++ [ EvSpawn (whisper_command (self st)) false;
             EvOpen (result_file (self st));
             EvSpawn (llama_command (self st) (strip content)) true;
             EvSetElapsedTime (measured E st);
             EvPrint (OutElapsedTime (measured E st)) ] /\
    elapsed_time (self st') = measured E st /\
    files st' = fs2.
Proof.
  intros Hm Hpre Hrun1 Hfile Htext Hrun2.
  rewrite (translate_after_transcription st out1 content fs1
             Hm Hpre Hrun1 Hfile Htext).
  rewrite llama_translation_eq. cbv zeta. cbn [self files ticks trace].
  rewrite Hrun2. cbn [Z.eqb]. rewrite timed_eq. cbv zeta.
  cbn [self files ticks trace elapsed_time]. fold (measured E st).
  eexists. split; [reflexivity|]. cbn [self files trace elapsed_time].
  repeat rewrite <- app_assoc. repeat split.
Qed.


End Runs.

(** ** Runs from the command line *)

Section CommandLine_runs.

Variable E : Env.
Variable parse_args : list str -> Args.t + Z.

Lemma main_eq (argv : list str) (a : Args.t) (st : state) :
  parse_args argv = inl a ->
  main E parse_args argv st =
  match translate E
          {| self := __init__ E (Args.transcription_model a) (Args.file a)
                              (Args.pre_recorded a) (Args.input_language a)
                              (Args.output_language a);
             files := files st; ticks := ticks st; trace := trace st |}
  with
  | (Ret translation_result, st1) =>
      (Ret tt,
       {| self := self st1; files := files st1; ticks := ticks st1;
          trace := trace st1 ++ [EvPrint (OutTranslation translation_result)] |})
  | (Raise e, st1) => (Raise e, st1)
  end.
Proof.
  intros Ha. unfold main. rewrite Ha.
  unfold bind at 1. cbn [construct]. unfold bind.
  destruct (translate E _) as [[r|e] st1]; reflexivity.
Qed.


(** X13. With [--pre_recorded], when the arguments parse and both engines
    succeed, [main] ends normally; the last thing it prints is the stripped
    output of the model runner, after the configuration, the two spawned
    commands (which carry the lower-cased languages), the reading of the
    result file and the elapsed time. *)
Theorem main_success
        (parse_args_choices :
           forall argv a,
             parse_args argv = inl a ->
             In (Args.transcription_model a) transcription_model_choices)
        (argv : list str) (a : Args.t) (st : state)
        (out1 content out2 : str) (fs1 fs2 : filesystem) :
  parse_args argv = inl a ->
  Args.pre_recorded a = true ->
  let g := __init__ E (lit "whisper_cpp") (Args.file a) true
                    (Args.input_language a) (Args.output_language a) in
  run_process E (whisper_command g) (files st) = (Exited 0 out1, fs1) ->
  fs1 (result_file g) = Some content ->
  strip content <> [] ->
  run_process E (llama_command g (strip content)) fs1 = (Exited 0 out2, fs2) ->
  exists st',
    main E parse_args argv st = (Ret tt, st') /\
    trace st' =
      trace st ++ info_events g
        ++ [ EvSpawn [ lit "./whisper.cpp/main";
                       lit "-m"; lit "./whisper.cpp/models/ggml-base.en.bin";
                       lit "-f"; Args.file a;
                       lit "-l"; lower E (Args.input_language a);
                       lit "-otxt" ] false;
             EvOpen (result_file g);
             EvSpawn [ lit "ollama"; lit "run"; lit "llama3";
                       lit "Translate the following text to "
                         ++ lower E (Args.output_language a) ++ lit ": "
                         ++ strip content ] true;
             EvSetElapsedTime (measured E st);
             EvPrint (OutElapsedTime (measured E st));
             EvPrint (OutTranslation (strip out2)) ] /\
    files st' = fs2.
Proof.
  intros Ha Hpre. cbv zeta. intros Hrun1 Hfile Htext Hrun2.
  assert (Hengine : Args.transcription_model a = lit "whisper_cpp").
  { apply parse_args_choices in Ha as Hin.
    destruct Hin as [Hin|[]]. symmetry. exact Hin. }
  rewrite (main_eq argv a st Ha), Hpre, Hengine.
  match goal with |- context [translate E ?s] => set (st0 := s) end.
  rewrite (translate_after_transcription E st0 out1 content fs1
             eq_refl eq_refl Hrun1 Hfile Htext).
  rewrite llama_translation_eq. cbv zeta.
  subst st0. cbn [self files ticks trace].
  rewrite Hrun2. cbn [Z.eqb]. rewrite timed_eq. cbv zeta.
  cbn [self files ticks trace]. fold (measured E st).
  eexists. split; [reflexivity|]. cbn [files trace].
  repeat rewrite <- app_assoc. repeat split.
Qed.

End CommandLine_runs.

Lemma translate_success_witness :
  exists st',
    translate hello (a_wav hello) = (Ret (strip privet_mir_nl), st') /\
    trace st' =
      trace (a_wav hello) ++ info_events (self (a_wav hello))
        ++ [ EvSpawn (whisper_command (self (a_wav hello))) false;
             EvOpen (result_file (self (a_wav hello)));
             EvSpawn (llama_command (self (a_wav hello))
                                    (strip (lit " Hello world "))) true;
             EvSetElapsedTime (measured hello (a_wav hello));
             EvPrint (OutElapsedTime (measured hello (a_wav hello))) ] /\
    elapsed_time (self st') = measured hello (a_wav hello) /\
    files st' = one_file (lit "a.wav") (lit " Hello world ").
Proof.
  apply (translate_success
           hello (a_wav hello) [] (lit " Hello world ") privet_mir_nl
           (one_file (lit "a.wav") (lit " Hello world "))
           (one_file (lit "a.wav") (lit " Hello world ")));
    try reflexivity.
  vm_compute. discriminate.
Defined.



Lemma main_success_witness :
  exists st',
    main hello RefParser.parse_args (argv_a_wav "whisper_cpp") (a_wav hello)
    = (Ret tt, st') /\
    last (trace st') (EvPrint OutRule) = EvPrint (OutTranslation privet_mir).
Proof.
  destruct (main_success
              hello RefParser.parse_args RefParser_choices
              (argv_a_wav "whisper_cpp")
              {| Args.file := lit "a.wav";
                 Args.transcription_model := lit "whisper_cpp";
                 Args.pre_recorded := true;
                 Args.input_language := lit "English";
                 Args.output_language := lit "Russian" |}
              (a_wav hello) [] (lit " Hello world ") privet_mir_nl
              (one_file (lit "a.wav") (lit " Hello world "))
              (one_file (lit "a.wav") (lit " Hello world "))
              eq_refl eq_refl eq_refl eq_refl
              ltac:(vm_compute; discriminate) eq_refl)
    as (st' & Hrun & Htrace & _).
  exists st'. split; [exact Hrun|]. rewrite Htrace. reflexivity.
Defined.

(** ** The parser of [main] and the engine *)

Module Argparse_facts.

Import Argparse.







End Argparse_facts.

Section CommandLine_argparse_properties.

Variable E : Env.

Import Argparse.


(** On a namespace of strings, [main] with this parser is the [main] of
    the typed arguments. *)
Lemma main_argparse_typed
      (argv : list str) (ns : Namespace) (engine path input output : str)
      (st : state) :
  parse_args parser argv = inl ns ->
  attribute ns "transcription_model" = PyStr engine ->
  attribute ns "file" = PyStr path ->
  attribute ns "input_language" = PyStr input ->
  attribute ns "output_language" = PyStr output ->
  main_argparse E argv st =
  main E (fun _ =>
            inl {| Args.file := path;
                   Args.transcription_model := engine;
                   Args.pre_recorded := truthy (attribute ns "pre_recorded");
                   Args.input_language := input;
                   Args.output_language := output |})
       argv st.
Proof.
  intros Hparse Hm Hf Hi Ho.
  unfold main_argparse, main, run_namespace.
  rewrite Hparse, Hm, Hf, Hi, Ho. reflexivity.
Qed.



End CommandLine_argparse_properties.


(** The same command line with the engine as a separate argument. *)
Example cli_with_whisper_cpp :
  fst (main_argparse hello (argv_a_wav "whisper_cpp") (a_wav hello)) = Ret tt /\
  fst (main_argparse hello (argv_a_wav "unknown_engine") (a_wav hello))
  = Raise (SystemExit 2) /\
  fst (main_argparse hello [lit "--help"] (a_wav hello))
  = Raise (SystemExit 0).
Proof. repeat split; vm_compute; reflexivity. Qed.
